(** * Trade analytics of the options dashboard (app.py)

    A shallow embedding of the analytic core of [app.py]: the sidebar
    filters, the headline metrics, the grouped tables, the best/worst
    rankings, the delta bias and the trade-log export.

    Conventions of the embedding.
    - A pandas DataFrame is the list of its rows, in index order.
    - A float64 cell is an exact rational ([Q]); the two non-finite values
      the script can produce, [float('inf')] and NaN, are constructors of
      [pyfloat].  This view has no rounding, so it is used for what the
      script decides by a guard or a comparison; the three headline sums
      are modelled a second time on binary64 cells, with the order of
      additions of [Series.sum()], in the module [F64].
    - A [datetime64[ns]] cell is the number of nanoseconds since the epoch
      ([Z]); a [datetime.date] is the number of days since the epoch.  The
      missing date NaT is the value below the least instant, as pandas
      stores it.
    - A record keeps the text of its label cells as the file has it; the
      texts that [read_csv] loads as a missing value are listed in
      [NA_VALUES].
    - pandas primitives ([nlargest], [sort_values], [groupby], [round],
      [median]) follow their documented contract; the sorts of the model
      are stable, which pandas promises for [nlargest] and [nsmallest]
      only: nothing below relies on the order of ties after
      [sort_values]. *)

From Stdlib Require Import Floats.
From Stdlib Require Import String Ascii.
From Stdlib Require Import ZArith QArith Qround Qabs Qpower Bool Lia Lqa.
From Stdlib Require Import List Permutation Sorted.
Import ListNotations.

Local Open Scope Z_scope.

(* ------------------------------------------------------------------ *)
(** ** Numbers *)

(** A Python float as the script sees it. *)
Inductive pyfloat : Type :=
| Finite (q : Q)
| PosInf
| NaN.

Definition Qlt_bool (x y : Q) : bool := negb (Qle_bool y x).

(** [Series.sum()]: 0 on the empty series. *)
Definition series_sum (s : list Q) : Q := fold_right Qplus 0%Q s.

(** [len(...)] as a rational, for the divisions of the script. *)
Definition len_Q {A} (l : list A) : Q := inject_Z (Z.of_nat (length l)).

(** [Series.mean()]: NaN on the empty series. *)
Definition series_mean (s : list Q) : pyfloat :=
  match s with
  | [] => NaN
  | _ => Finite (series_sum s / len_Q s)
  end.

(** [numpy.rint]: round to the nearest integer, halves to the even one. *)
Definition rint (q : Q) : Z :=
  let f := Qfloor q in
  let d := (q - inject_Z f)%Q in
  if Qlt_bool d (1 # 2) then f
  else if Qlt_bool (1 # 2) d then f + 1
  else if Z.even f then f else f + 1.

(** [x.round(k)]: [rint (x * 10^k) / 10^k]. *)
Definition round_dec (k : nat) (q : Q) : Q :=
  let p := inject_Z (10 ^ Z.of_nat k) in
  (inject_Z (rint (q * p)) / p)%Q.

Definition round_float (k : nat) (x : pyfloat) : pyfloat :=
  match x with
  | Finite q => Finite (round_dec k q)
  | PosInf => PosInf
  | NaN => NaN
  end.

Definition scale_float (c : Q) (x : pyfloat) : pyfloat :=
  match x with
  | Finite q => Finite (q * c)
  | PosInf => PosInf
  | NaN => NaN
  end.

(* ------------------------------------------------------------------ *)
(** ** Stable sorting *)

Section StableSort.
Context {A : Type}.
(** [before x y]: [x] must be placed strictly ahead of [y]. *)
Variable before : A -> A -> bool.

(** Insert [x] ahead of the first element that is not strictly ahead of
    it: among equals the inserted element comes first. *)
Fixpoint insert_sorted (x : A) (l : list A) : list A :=
  match l with
  | [] => [x]
  | y :: l' => if before y x then y :: insert_sorted x l' else x :: l
  end.

(** Insertion from the right: equal elements keep their input order. *)
Definition stable_sort (l : list A) : list A :=
  fold_right insert_sorted [] l.
End StableSort.

(** Sorting a column of numbers in ascending order. *)
Definition sort_values_Q (s : list Q) : list Q := stable_sort Qlt_bool s.

(** [Series.median()]: NaN on the empty series, the middle value of the
    sorted series, or the mean of the two middle values. *)
Definition series_median (s : list Q) : pyfloat :=
  let v := sort_values_Q s in
  let n := length v in
  match n with
  | O => NaN
  | _ =>
      if Nat.odd n then Finite (nth (n / 2) v 0%Q)
      else Finite ((nth (n / 2 - 1) v 0%Q + nth (n / 2) v 0%Q) / 2)%Q
  end.

(* ------------------------------------------------------------------ *)
(** ** Data model *)

Definition Timestamp := Z.   (* datetime64[ns] *)
Definition Date := Z.        (* datetime.date, as days since 1970-01-01 *)

Definition NS_PER_DAY : Z := 86400000000000.

(** [Series.dt.date]: the calendar day of a timestamp. *)
Definition dt_date (t : Timestamp) : Date := t / NS_PER_DAY.

(** One row of the frame returned by [load_data]. *)
Record Trade : Type := mkTrade {
  openDate : Timestamp;
  closeDate : Timestamp;
  type : string;
  symbol : string;
  status : string;
  quantity : Z;
  pnl : Q;
  returnPct : Q;
  daysInTrade : Q;
  estimated_delta : Q;
  delta_category : string;
  winning_trade : bool;
  month : string
}.

Definition DataFrame := list Trade.

Definition Q_eq_dec (x y : Q) : {x = y} + {x <> y}.
Proof. decide equality; [apply Pos.eq_dec | apply Z.eq_dec]. Defined.

Definition Trade_eq_dec (x y : Trade) : {x = y} + {x <> y}.
Proof.
  decide equality;
    try apply string_dec; try apply Z.eq_dec; try apply Q_eq_dec;
    try apply bool_dec.
Defined.

(* ------------------------------------------------------------------ *)
(** ** Sidebar filters *)

(** The state of the four sidebar widgets. *)
Record Filters : Type := mkFilters {
  selected_strategy : string;
  selected_status : string;
  selected_symbol : string;
  date_range : list Date
}.

Definition ALL : string := "All".

(** Lines 89-100: four successive boolean-mask selections. *)
Definition filtered_df (df : DataFrame) (w : Filters) : DataFrame :=
  let d0 := df in
  let d1 :=
    if negb (selected_strategy w =? ALL)%string
    then filter (fun r => (type r =? selected_strategy w)%string) d0
    else d0 in
  let d2 :=
    if negb (selected_status w =? ALL)%string
    then filter (fun r => (status r =? selected_status w)%string) d1
    else d1 in
  let d3 :=
    if negb (selected_symbol w =? ALL)%string
    then filter (fun r => (symbol r =? selected_symbol w)%string) d2
    else d2 in
  if (length (date_range w) =? 2)%nat
  then filter (fun r =>
                 (nth 0 (date_range w) 0 <=? dt_date (openDate r)) &&
                 (dt_date (openDate r) <=? nth 1 (date_range w) 0)) d3
  else d3.

(** The criteria of a query: each constraint is optional. *)
Record Criteria : Type := mkCriteria {
  on_strategy : option string;
  on_status : option string;
  on_symbol : option string;
  on_openDate : option (Date * Date)
}.

(** What a widget state stands for: the entry ["All"] of a select box is
    the absence of the equality constraint, and a date input that does
    not hold exactly two bounds is the absence of the date constraint. *)
Definition eq_constraint (sel : string) : option string :=
  if (sel =? ALL)%string then None else Some sel.

Definition range_constraint (dr : list Date) : option (Date * Date) :=
  match dr with
  | [a; b] => Some (a, b)
  | _ => None
  end.

Definition criteria_of (w : Filters) : Criteria :=
  {| on_strategy := eq_constraint (selected_strategy w);
     on_status := eq_constraint (selected_status w);
     on_symbol := eq_constraint (selected_symbol w);
     on_openDate := range_constraint (date_range w) |}.

(** The widget state that expresses given criteria. *)
Definition widgets_of (c : Criteria) : Filters :=
  {| selected_strategy := match on_strategy c with Some s => s | None => ALL end;
     selected_status := match on_status c with Some s => s | None => ALL end;
     selected_symbol := match on_symbol c with Some s => s | None => ALL end;
     date_range := match on_openDate c with Some (a, b) => [a; b] | None => [] end |}.

Definition holds_eq (c : option string) (v : string) : Prop :=
  match c with
  | None => True
  | Some s => v = s
  end.

Definition holds_range (c : option (Date * Date)) (t : Timestamp) : Prop :=
  match c with
  | None => True
  | Some (a, b) => a <= dt_date t <= b
  end.

(** A record satisfies the criteria when every constraint present holds:
    exact equality on the three labels, and the day of [openDate] inside
    the closed interval. *)
Definition satisfies (c : Criteria) (r : Trade) : Prop :=
  holds_eq (on_strategy c) (type r) /\
  holds_eq (on_status c) (status r) /\
  holds_eq (on_symbol c) (symbol r) /\
  holds_range (on_openDate c) (openDate r).

Definition holds_eqb (c : option string) (v : string) : bool :=
  match c with
  | None => true
  | Some s => (v =? s)%string
  end.

Definition holds_rangeb (c : option (Date * Date)) (t : Timestamp) : bool :=
  match c with
  | None => true
  | Some (a, b) => (a <=? dt_date t) && (dt_date t <=? b)
  end.

Definition satisfiesb (c : Criteria) (r : Trade) : bool :=
  holds_eqb (on_strategy c) (type r) &&
  holds_eqb (on_status c) (status r) &&
  holds_eqb (on_symbol c) (symbol r) &&
  holds_rangeb (on_openDate c) (openDate r).

(** [l1] is obtained from [l2] by deleting rows (relative order kept). *)
Inductive Subseq {A} : list A -> list A -> Prop :=
| Subseq_nil : Subseq [] []
| Subseq_skip x l1 l2 : Subseq l1 l2 -> Subseq l1 (x :: l2)
| Subseq_keep x l1 l2 : Subseq l1 l2 -> Subseq (x :: l1) (x :: l2).

(* ------------------------------------------------------------------ *)
(** ** Headline metrics (lines 103-111) *)

Definition pnl_col (df : DataFrame) : list Q := map pnl df.

Definition total_pnl (df : DataFrame) : Q := series_sum (pnl_col df).
Definition avg_pnl (df : DataFrame) : pyfloat := series_mean (pnl_col df).
Definition median_pnl (df : DataFrame) : pyfloat := series_median (pnl_col df).

Definition total_trades (df : DataFrame) : nat := length df.

Definition wins (df : DataFrame) : DataFrame :=
  filter (fun r => Qlt_bool 0 (pnl r)) df.
Definition losses (df : DataFrame) : DataFrame :=
  filter (fun r => Qlt_bool (pnl r) 0) df.

Definition win_rate (df : DataFrame) : pyfloat :=
  if (0 <? length df)%nat
  then Finite (len_Q (wins df) / len_Q df * 100)%Q
  else Finite 0%Q.

Definition gross_profit (df : DataFrame) : Q := series_sum (pnl_col (wins df)).
Definition gross_loss (df : DataFrame) : Q :=
  Qabs (series_sum (pnl_col (losses df))).

Definition profit_factor (df : DataFrame) : pyfloat :=
  if Qlt_bool 0 (gross_loss df)
  then Finite (gross_profit df / gross_loss df)%Q
  else PosInf.

(* ------------------------------------------------------------------ *)
(** ** The headline sums on int64 cells (lines 103, 109, 110)

    [read_csv] loads a pnl column whose every cell is a whole number as
    int64.  Its sums are exact, but they wrap around at 2^63. *)

Module I64.

Definition wrap (z : Z) : Z := (z + 2 ^ 63) mod 2 ^ 64 - 2 ^ 63.

(** [Series.sum()]. *)
Definition sum (s : list Z) : Z := fold_left (fun acc x => wrap (acc + x)) s 0.

(** [abs] of an int64. *)
Definition abs (z : Z) : Z := wrap (Z.abs z).

Definition total_pnl (pnl : list Z) : Z := sum pnl.

Definition gross_profit (pnl : list Z) : Z :=
  sum (filter (fun x => 0 <? x) pnl).

Definition gross_loss (pnl : list Z) : Z :=
  abs (sum (filter (fun x => x <? 0) pnl)).

(** The absolute values of the cells, added up without wrapping. *)
Definition magnitude (pnl : list Z) : Z :=
  fold_right (fun x acc => Z.abs x + acc) 0 pnl.

End I64.

(* ------------------------------------------------------------------ *)
(** ** The headline sums on binary64 cells (lines 103, 109, 110)

    [Series.sum()] on a float64 column replaces the missing cells by 0 and
    hands the array to numpy's [add.reduce], which adds in binary64 with
    its pairwise scheme: fewer than 8 cells are added one after the other,
    up to 128 cells go through 8 running sums that are combined at the
    end, and a longer array is split in two.  Each addition rounds, so
    the result depends on the order written out here. *)

Module F64.

(** [res += a[i]] over the cells of [a]. *)
Definition seq_add (acc : float) (a : list float) : float :=
  fold_left PrimFloat.add a acc.

(** [r[j] += a[i + j]] for the 8 running sums. *)
Definition lanes_add (r b : list float) : list float :=
  map (fun p => (fst p + snd p)%float) (combine r b).

(** The unrolled loop: blocks of 8 cells as long as 8 are left. *)
Fixpoint unrolled (fuel : nat) (r a : list float) : list float * list float :=
  match fuel with
  | O => (r, a)
  | S fuel' =>
      if (8 <=? length a)%nat
      then unrolled fuel' (lanes_add r (firstn 8 a)) (skipn 8 a)
      else (r, a)
  end.

(** An array of 8 to 128 cells. *)
Definition block_sum (a : list float) : float :=
  match unrolled (length a) (firstn 8 a) (skipn 8 a) with
  | ([r0; r1; r2; r3; r4; r5; r6; r7], rest) =>
      seq_add (((r0 + r1) + (r2 + r3)) + ((r4 + r5) + (r6 + r7)))%float rest
  | _ => seq_add (-0)%float a
  end.

(** [pairwise_sum]; the recursion halves the array, so a fuel of its
    length is never used up. *)
Fixpoint pairwise_sum (fuel : nat) (a : list float) : float :=
  let n := length a in
  if (n <? 8)%nat then seq_add (-0)%float a
  else if (n <=? 128)%nat then block_sum a
  else
    match fuel with
    | O => block_sum a
    | S fuel' =>
        let n2 := (n / 2 - (n / 2) mod 8)%nat in
        (pairwise_sum fuel' (firstn n2 a) + pairwise_sum fuel' (skipn n2 a))%float
    end.

(** [np.add.reduce]: the identity 0 plus the pairwise sum. *)
Definition np_sum (a : list float) : float :=
  (0 + pairwise_sum (length a) a)%float.

(** [skipna]: a missing cell counts as 0. *)
Definition fillna0 (x : float) : float := if is_nan x then 0%float else x.

(** [Series.sum()]. *)
Definition sum (s : list float) : float := np_sum (map fillna0 s).

(** Lines 103, 109 and 110 on the pnl column of the subset. *)
Definition total_pnl (pnl : list float) : float := sum pnl.

Definition gross_profit (pnl : list float) : float :=
  sum (filter (fun x => (0 <? x)%float) pnl).

Definition gross_loss (pnl : list float) : float :=
  abs (sum (filter (fun x => (x <? 0)%float) pnl)).

(** The number a finite cell stands for, sign times mantissa times a
    power of 2; 0 for the cells that stand for no number. *)
Definition value (x : float) : Q :=
  match Prim2SF x with
  | S754_finite s m e =>
      ((if s then -1 else 1) * inject_Z (Zpos m) * Qpower 2 e)%Q
  | _ => 0%Q
  end.

End F64.

(* ------------------------------------------------------------------ *)
(** ** Calendar *)

(** Year, month and day of a day number (proleptic Gregorian calendar). *)
Definition civil_from_days (d : Date) : Z * Z * Z :=
  let z := d + 719468 in
  let era := z / 146097 in
  let doe := z - era * 146097 in
  let yoe := (doe - doe / 1460 + doe / 36524 - doe / 146096) / 365 in
  let doy := doe - (365 * yoe + yoe / 4 - yoe / 100) in
  let mp := (5 * doy + 2) / 153 in
  let dd := doy - (153 * mp + 2) / 5 + 1 in
  let mm := if mp <? 10 then mp + 3 else mp - 9 in
  let yy := yoe + era * 400 + (if mm <=? 2 then 1 else 0) in
  (yy, mm, dd).

Definition days_from_civil (y m d : Z) : Date :=
  let y' := if m <=? 2 then y - 1 else y in
  let era := y' / 400 in
  let yoe := y' - era * 400 in
  let mp := if 2 <? m then m - 3 else m + 9 in
  let doy := (153 * mp + 2) / 5 + d - 1 in
  let doe := yoe * 365 + yoe / 4 - yoe / 100 + doy in
  era * 146097 + doe - 719468.

Definition digit (n : Z) : ascii := ascii_of_N (48 + Z.to_N n).

Definition pad2 (n : Z) : string :=
  String (digit (n / 10)) (String (digit (n mod 10)) EmptyString).

Definition pad4 (n : Z) : string :=
  String (digit (n / 1000)) (String (digit (n / 100 mod 10)) (pad2 (n mod 100))).

(** The text of a calendar day under the format ['%Y-%m-%d']. *)
Definition format_ymd (day : Date) : string :=
  let '(y, m, d) := civil_from_days day in
  (pad4 y ++ "-" ++ pad2 m ++ "-" ++ pad2 d)%string.

(** [Series.dt.strftime('%Y-%m-%d')]. *)
Definition strftime_ymd (t : Timestamp) : string := format_ymd (dt_date t).

(** [Series.dt.to_period('M').astype(str)]. *)
Definition to_period_M (t : Timestamp) : string :=
  let '(y, m, _) := civil_from_days (dt_date t) in
  (pad4 y ++ "-" ++ pad2 m)%string.

Definition digit_val (c : ascii) : option Z :=
  let n := Z.of_N (N_of_ascii c) in
  if (48 <=? n) && (n <=? 57) then Some (n - 48) else None.

Definition num2 (a b : ascii) : option Z :=
  match digit_val a, digit_val b with
  | Some x, Some y => Some (10 * x + y)
  | _, _ => None
  end.

Definition num4 (a b c d : ascii) : option Z :=
  match num2 a b, num2 c d with
  | Some x, Some y => Some (100 * x + y)
  | _, _ => None
  end.

Definition is_leap (y : Z) : bool :=
  ((y mod 4 =? 0) && negb (y mod 100 =? 0)) || (y mod 400 =? 0).

Definition days_in_month (y m : Z) : Z :=
  if m =? 2 then (if is_leap y then 29 else 28)
  else if (m =? 4) || (m =? 6) || (m =? 9) || (m =? 11) then 30
  else 31.

(** The representable instants of [datetime64[ns]]. *)
Definition TS_MIN : Z := - (2 ^ 63) + 1.
Definition TS_MAX : Z := 2 ^ 63 - 1.

Definition in_bounds (t : Z) : bool := (TS_MIN <=? t) && (t <=? TS_MAX).

(** [pd.to_datetime] on the text of a calendar day, ["YYYY-MM-DD"]: the
    midnight of that day; [None] stands for the failure of the load
    (text that is no calendar day, or a day outside the representable
    range).  Other date notations are left out of the model. *)
Definition to_datetime (s : string) : option Timestamp :=
  match s with
  | String y1 (String y2 (String y3 (String y4 (String sep1
      (String m1 (String m2 (String sep2
        (String d1 (String d2 EmptyString))))))))) =>
      if (sep1 =? "-")%char && (sep2 =? "-")%char then
        match num4 y1 y2 y3 y4, num2 m1 m2, num2 d1 d2 with
        | Some y, Some m, Some d =>
            if (1 <=? m) && (m <=? 12) && (1 <=? d) && (d <=? days_in_month y m)
            then
              let t := days_from_civil y m d * NS_PER_DAY in
              if in_bounds t then Some t else None
            else None
        | _, _, _ => None
        end
      else None
  | _ => None
  end.

(** The days whose midnight is a representable instant. *)
Definition DAY_MIN : Date := -106751.
Definition DAY_MAX : Date := 106751.

(* ------------------------------------------------------------------ *)
(** ** Loading (lines 50-57) *)

(** One row of the CSV file: the eleven stored columns. *)
Record CsvRow : Type := mkCsvRow {
  csv_openDate : string;
  csv_closeDate : string;
  csv_type : string;
  csv_symbol : string;
  csv_status : string;
  csv_quantity : Z;
  csv_pnl : Q;
  csv_returnPct : Q;
  csv_daysInTrade : Q;
  csv_estimated_delta : Q;
  csv_delta_category : string
}.

Definition load_row (c : CsvRow) : option Trade :=
  match to_datetime (csv_openDate c), to_datetime (csv_closeDate c) with
  | Some o, Some cl =>
      Some {| openDate := o; closeDate := cl;
              type := csv_type c; symbol := csv_symbol c;
              status := csv_status c; quantity := csv_quantity c;
              pnl := csv_pnl c; returnPct := csv_returnPct c;
              daysInTrade := csv_daysInTrade c;
              estimated_delta := csv_estimated_delta c;
              delta_category := csv_delta_category c;
              winning_trade := Qlt_bool 0 (csv_pnl c);
              month := to_period_M o |}
  | _, _ => None
  end.

Fixpoint load_data (rows : list CsvRow) : option DataFrame :=
  match rows with
  | [] => Some []
  | c :: rest =>
      match load_row c, load_data rest with
      | Some r, Some df => Some (r :: df)
      | _, _ => None
      end
  end.

(** A date cell the model of [to_datetime] reads: a calendar day written
    YYYY-MM-DD whose midnight is a representable instant. *)
Definition written_as_day (s : string) : Prop := to_datetime s <> None.

(* ------------------------------------------------------------------ *)
(** ** Grouped tables *)

Section GroupBy.
Context {K : Type}.
Variable key_eqb : K -> K -> bool.
Variable key_ltb : K -> K -> bool.
Variable key : Trade -> K.

(** Insert a key in an ascending list without duplicates. *)
Fixpoint add_key (k : K) (ks : list K) : list K :=
  match ks with
  | [] => [k]
  | k' :: ks' =>
      if key_eqb k k' then ks
      else if key_ltb k k' then k :: ks
      else k' :: add_key k ks'
  end.

Definition group_keys (df : DataFrame) : list K :=
  fold_right (fun r ks => add_key (key r) ks) [] df.

(** [df.groupby(key)]: one group per distinct key present, in ascending
    key order; each group holds its rows in frame order. *)
Definition groupby (df : DataFrame) : list (K * DataFrame) :=
  map (fun k => (k, filter (fun r => key_eqb (key r) k) df)) (group_keys df).
End GroupBy.

Definition pair_eqb (x y : string * string) : bool :=
  (fst x =? fst y)%string && (snd x =? snd y)%string.

Definition pair_ltb (x y : string * string) : bool :=
  String.ltb (fst x) (fst y) ||
  ((fst x =? fst y)%string && String.ltb (snd x) (snd y)).

Definition groupby_str := @groupby string String.eqb String.ltb.
Definition groupby_pair := @groupby (string * string) pair_eqb pair_ltb.

Definition bool_Q (b : bool) : Q := if b then 1%Q else 0%Q.

(** Aggregates shared by the tables; every figure goes through
    [.round(2)], the win rate then through [(x * 100).round(1)]. *)
Definition agg_total (g : DataFrame) : Q := round_dec 2 (series_sum (pnl_col g)).
Definition agg_avg (g : DataFrame) : pyfloat := round_float 2 (series_mean (pnl_col g)).
Definition agg_median (g : DataFrame) : pyfloat :=
  round_float 2 (series_median (pnl_col g)).
Definition agg_win_rate (g : DataFrame) : pyfloat :=
  round_float 1
    (scale_float 100
       (round_float 2 (series_mean (map (fun r => bool_Q (winning_trade r)) g)))).
Definition agg_mean (col : Trade -> Q) (g : DataFrame) : pyfloat :=
  round_float 2 (series_mean (map col g)).

Module Strategy.
Record row : Type := mk {
  Total_PnL : Q; Avg_PnL : pyfloat; Median_PnL : pyfloat; Trades : nat;
  Win_Rate : pyfloat; Avg_Return : pyfloat; Avg_Days : pyfloat
}.
End Strategy.

Module Status.
Record row : Type := mk {
  Total_PnL : Q; Avg_PnL : pyfloat; Median_PnL : pyfloat; Trades : nat;
  Win_Rate : pyfloat; Avg_Days : pyfloat
}.
End Status.

Module Pnl.
Record row : Type := mk {
  Total_PnL : Q; Avg_PnL : pyfloat; Trades : nat; Win_Rate : pyfloat
}.
End Pnl.

Module Delta.
Record row : Type := mk {
  Avg_Delta : pyfloat; Total_Delta : Q; Total_PnL : Q; Trades : nat
}.
End Delta.

(** [sort_values(col, ascending=False)] on a keyed table. *)
Definition sort_desc {K R} (col : R -> Q) (t : list (K * R)) : list (K * R) :=
  stable_sort (fun x y => Qlt_bool (col (snd y)) (col (snd x))) t.

Definition pnl_row (g : DataFrame) : Pnl.row :=
  Pnl.mk (agg_total g) (agg_avg g) (length g) (agg_win_rate g).

(** Lines 284-293. *)
Definition strategy_stats (df : DataFrame) : list (string * Strategy.row) :=
  sort_desc Strategy.Total_PnL
    (map (fun kg =>
            (fst kg,
             Strategy.mk (agg_total (snd kg)) (agg_avg (snd kg))
               (agg_median (snd kg)) (length (snd kg)) (agg_win_rate (snd kg))
               (agg_mean returnPct (snd kg)) (agg_mean daysInTrade (snd kg))))
         (groupby_str type df)).

(** Lines 406-413. *)
Definition status_stats (df : DataFrame) : list (string * Status.row) :=
  map (fun kg =>
         (fst kg,
          Status.mk (agg_total (snd kg)) (agg_avg (snd kg))
            (agg_median (snd kg)) (length (snd kg)) (agg_win_rate (snd kg))
            (agg_mean daysInTrade (snd kg))))
      (groupby_str status df).

(** Lines 484-491. *)
Definition status_strategy (df : DataFrame) : list ((string * string) * Pnl.row) :=
  map (fun kg => (fst kg, pnl_row (snd kg)))
      (groupby_pair (fun r => (type r, status r)) df).

(** Lines 596-603. *)
Definition symbol_stats (df : DataFrame) : list (string * Pnl.row) :=
  sort_desc Pnl.Total_PnL
    (map (fun kg => (fst kg, pnl_row (snd kg))) (groupby_str symbol df)).

(** Lines 664-671. *)
Definition delta_strategy (df : DataFrame) : list (string * Delta.row) :=
  sort_desc Delta.Total_PnL
    (map (fun kg =>
            (fst kg,
             Delta.mk (agg_mean estimated_delta (snd kg))
               (round_dec 2 (series_sum (map estimated_delta (snd kg))))
               (agg_total (snd kg)) (length (snd kg))))
         (groupby_str type df)).

(** Lines 717-723. *)
Definition delta_perf (df : DataFrame) : list (string * Pnl.row) :=
  map (fun kg => (fst kg, pnl_row (snd kg))) (groupby_str delta_category df).

(** A table is in presentation order when its totals never increase. *)
Definition descending {K R} (col : R -> Q) (t : list (K * R)) : Prop :=
  StronglySorted (fun x y => (col (snd y) <= col (snd x))%Q) t.

(** A table is in key order when its keys strictly increase. *)
Definition key_ascending {K R} (ltb : K -> K -> bool) (t : list (K * R)) : Prop :=
  StronglySorted (fun x y => ltb (fst x) (fst y) = true) t.

(* ------------------------------------------------------------------ *)
(** ** Best and worst trades (lines 536-538, 554-556) *)

Definition pnl_desc (x y : Trade) : bool := Qlt_bool (pnl y) (pnl x).
Definition pnl_asc (x y : Trade) : bool := Qlt_bool (pnl x) (pnl y).

(** [df.nlargest(n, 'pnl')], [keep='first']: the first [n] rows in
    descending order of pnl, rows of equal pnl in frame order. *)
Definition nlargest (n : nat) (df : DataFrame) : DataFrame :=
  firstn n (stable_sort pnl_desc df).

(** [df.nsmallest(n, 'pnl')], [keep='first']. *)
Definition nsmallest (n : nat) (df : DataFrame) : DataFrame :=
  firstn n (stable_sort pnl_asc df).

(** The seven columns kept for the two tables. *)
Record RankedRow : Type := mkRanked {
  rk_openDate : Timestamp;
  rk_type : string;
  rk_symbol : string;
  rk_status : string;
  rk_pnl : Q;
  rk_returnPct : Q;
  rk_daysInTrade : Q
}.

Definition ranked_cols (r : Trade) : RankedRow :=
  mkRanked (openDate r) (type r) (symbol r) (status r) (pnl r) (returnPct r)
    (daysInTrade r).

Definition best_trades (df : DataFrame) : list RankedRow :=
  map ranked_cols (nlargest 10 df).

Definition worst_trades (df : DataFrame) : list RankedRow :=
  map ranked_cols (nsmallest 10 df).

(** The rows of [df] whose pnl equals [v], in frame order. *)
Definition with_pnl (v : Q) (df : DataFrame) : DataFrame :=
  filter (fun r => Qeq_bool (pnl r) v) df.

(** [l1] is an initial segment of [l2]. *)
Definition Prefix {A} (l1 l2 : list A) : Prop := exists k, l2 = l1 ++ k.

(** [out] is the selection of the [n] rows of [df] that come first under
    the order [ahead] on pnl: it has [n] rows (all of them when [df] is
    shorter), no row left out comes before a selected one, the selection is
    listed in that order, rows of one pnl value are taken in frame order
    from the first on, and a frame of at most [n] rows is returned whole. *)
Definition selects_top (ahead : Q -> Q -> Prop) (n : nat) (df out : DataFrame)
  : Prop :=
  length out = Nat.min n (length df) /\
  (exists rest,
      Permutation (out ++ rest) df /\
      forall x y, In x out -> In y rest -> ahead (pnl x) (pnl y)) /\
  StronglySorted (fun x y => ahead (pnl x) (pnl y)) out /\
  (forall v, Prefix (with_pnl v out) (with_pnl v df)) /\
  ((length df <= n)%nat -> Permutation out df).

(* ------------------------------------------------------------------ *)
(** ** Delta exposure (lines 642-655) *)

Definition total_delta (df : DataFrame) : Q :=
  series_sum (map estimated_delta df).

Definition avg_delta (df : DataFrame) : pyfloat :=
  series_mean (map estimated_delta df).

Definition bias (df : DataFrame) : string :=
  if Qlt_bool 50 (total_delta df) then "Bullish"
  else if Qlt_bool (total_delta df) (-50) then "Bearish"
  else "Neutral".

(** The rule as the specification words it, with the threshold a setting
    of the query. *)
Definition bias_with_threshold (threshold : Q) (df : DataFrame) : string :=
  if Qlt_bool threshold (total_delta df) then "Bullish"
  else if Qlt_bool (total_delta df) (- threshold) then "Bearish"
  else "Neutral".

(* ------------------------------------------------------------------ *)
(** ** Trade log and export (lines 743-784) *)

(** Lines 743-751: the eleven stored columns, the two dates as day text,
    the return as a percentage with two decimals. *)
Definition display_row (r : Trade) : CsvRow :=
  {| csv_openDate := strftime_ymd (openDate r);
     csv_closeDate := strftime_ymd (closeDate r);
     csv_type := type r; csv_symbol := symbol r; csv_status := status r;
     csv_quantity := quantity r; csv_pnl := pnl r;
     csv_returnPct := round_dec 2 (returnPct r * 100);
     csv_daysInTrade := daysInTrade r;
     csv_estimated_delta := estimated_delta r;
     csv_delta_category := delta_category r |}.

Inductive Column : Type :=
| col_openDate | col_closeDate | col_type | col_symbol | col_status
| col_quantity | col_pnl | col_returnPct | col_daysInTrade
| col_estimated_delta | col_delta_category.

Definition cell_ltb (c : Column) (x y : CsvRow) : bool :=
  match c with
  | col_openDate => String.ltb (csv_openDate x) (csv_openDate y)
  | col_closeDate => String.ltb (csv_closeDate x) (csv_closeDate y)
  | col_type => String.ltb (csv_type x) (csv_type y)
  | col_symbol => String.ltb (csv_symbol x) (csv_symbol y)
  | col_status => String.ltb (csv_status x) (csv_status y)
  | col_quantity => csv_quantity x <? csv_quantity y
  | col_pnl => Qlt_bool (csv_pnl x) (csv_pnl y)
  | col_returnPct => Qlt_bool (csv_returnPct x) (csv_returnPct y)
  | col_daysInTrade => Qlt_bool (csv_daysInTrade x) (csv_daysInTrade y)
  | col_estimated_delta =>
      Qlt_bool (csv_estimated_delta x) (csv_estimated_delta y)
  | col_delta_category =>
      String.ltb (csv_delta_category x) (csv_delta_category y)
  end.

(** [sort_values(sort_col, ascending=...)]. *)
Definition sort_values (c : Column) (ascending : bool) (t : list CsvRow)
  : list CsvRow :=
  if ascending then stable_sort (cell_ltb c) t
  else stable_sort (fun x y => cell_ltb c y x) t.

(** Lines 743-762.  [search] is [None] for an empty search box; for a
    term typed in, it is the row mask that [str.contains] yields on the
    text of the cells. *)
Definition display_df (df : DataFrame) (search : option (CsvRow -> bool))
  (sort_col : Column) (ascending : bool) : list CsvRow :=
  let shown := map display_row df in
  let found := match search with
               | Some mask => filter mask shown
               | None => shown
               end in
  sort_values sort_col ascending found.

(** What a stored row becomes once written by the export and read back:
    both dates at midnight of their day, the return as the two-decimal
    percentage, the two derived columns recomputed. *)
Definition reloaded (r : Trade) : Trade :=
  {| openDate := dt_date (openDate r) * NS_PER_DAY;
     closeDate := dt_date (closeDate r) * NS_PER_DAY;
     type := type r; symbol := symbol r; status := status r;
     quantity := quantity r; pnl := pnl r;
     returnPct := round_dec 2 (returnPct r * 100);
     daysInTrade := daysInTrade r;
     estimated_delta := estimated_delta r;
     delta_category := delta_category r;
     winning_trade := Qlt_bool 0 (pnl r);
     month := to_period_M (dt_date (openDate r) * NS_PER_DAY) |}.

Definition day_in_range (d : Date) : Prop := DAY_MIN <= d <= DAY_MAX.

(* ------------------------------------------------------------------ *)
(** ** Delta tab: share of neutral trades (line 658) *)

(** Division of a count by a length as numpy does it: a zero divisor
    gives NaN for a zero count and infinity for a positive one, with a
    warning and no exception. *)
Definition np_divide (count len : Q) : pyfloat :=
  if Qeq_bool len 0
  then (if Qeq_bool count 0 then NaN else PosInf)
  else Finite (count / len).

Definition neutral_trades (df : DataFrame) : DataFrame :=
  filter (fun r => (delta_category r =? "Neutral")%string) df.

Definition neutral_pct (df : DataFrame) : pyfloat :=
  scale_float 100 (np_divide (len_Q (neutral_trades df)) (len_Q df)).

(* ------------------------------------------------------------------ *)
(** ** Connectivity probes (test_tradier_api.py, test_tradier_detailed.py)

    The two scripts talk to the network and to the console.  The network
    is an oracle that answers the n-th request of a run; the requests sent
    are logged in order.  What the scripts print is kept only where it is
    a verdict. *)

(** A decoded JSON document. *)
#[warnings="-register-all"]
Inductive json : Type :=
| JNull
| JBool (b : bool)
| JNum (q : Q)
| JStr (s : string)
| JList (items : list json)
| JDict (entries : list (string * json)).

Inductive exn : Type :=
| TypeError
| IndexError
| Timeout
| RequestException
| OtherException.

(** One call of [requests.get]. *)
Record Request : Type := mkRequest {
  url : string;
  authorization : string;
  accept : string;
  params : list (string * string);
  timeout : option Z
}.

(** What a call comes back with: an exception, or a response with its
    status code and its body, [None] when the body is not JSON. *)
Inductive reply : Type :=
| Raises (e : exn)
| Response (status_code : Z) (body : option json).

Definition Network := nat -> Request -> reply.
Definition Log := list Request.

Definition http_get (net : Network) (req : Request) (log : Log) : reply * Log :=
  (net (length log) req, log ++ [req]).

(** [f'{key}'] for the value of the environment variable, [None] when it
    is not set. *)
Definition format_key (key : option string) : string :=
  match key with
  | Some k => k
  | None => "None"
  end.

Definition bearer (key : option string) : string :=
  ("Bearer " ++ format_key key)%string.

(** [s in x] and [x[s]] for a string [s] and a decoded document [x];
    [None] is the exception Python raises on a value of the wrong kind or
    on a missing key. *)
Definition py_contains (s : string) (x : json) : option bool :=
  match x with
  | JDict entries => Some (existsb (fun e => (fst e =? s)%string) entries)
  | JList items =>
      Some (existsb (fun i => match i with
                              | JStr t => (t =? s)%string
                              | _ => false
                              end) items)
  | JStr t => Some (match String.index 0 s t with Some _ => true | None => false end)
  | _ => None
  end.

Definition py_getitem (x : json) (s : string) : option json :=
  match x with
  | JDict entries =>
      match find (fun e => (fst e =? s)%string) entries with
      | Some e => Some (snd e)
      | None => None
      end
  | _ => None
  end.

Module TradierApi.

Definition SANDBOX_BASE_URL : string := "https://sandbox.tradier.com/v1".

Definition request (key : option string) (path : string)
  (query : list (string * string)) : Request :=
  {| url := (SANDBOX_BASE_URL ++ path)%string;
     authorization := bearer key;
     accept := "application/json";
     params := query;
     timeout := None |}.

Definition profile_request (key : option string) : Request :=
  request key "/user/profile" [].
Definition quotes_request (key : option string) : Request :=
  request key "/markets/quotes" [("symbols", "SPY,AAPL")]%string.
Definition chains_request (key : option string) : Request :=
  request key "/markets/options/chains"
    [("symbol", "SPY"); ("expiration", "2024-12-31")]%string.
Definition expirations_request (key : option string) : Request :=
  request key "/markets/options/expirations" [("symbol", "SPY")]%string.

(** The body of the three plain probes after the call: [True] on status
    200 with a JSON body, [False] otherwise, any exception caught. *)
Definition plain_verdict (r : reply) : bool :=
  match r with
  | Raises _ => false
  | Response code body =>
      if code =? 200
      then match body with Some _ => true | None => false end
      else false
  end.

(** Lines 96-108: whether the report on the option chain gets through
    without an exception. *)
Definition chain_report (data : json) : bool :=
  match py_contains "options" data with
  | None => false
  | Some false => true
  | Some true =>
      match py_getitem data "options" with
      | None => false
      | Some v =>
          match py_contains "option" v with
          | None => false
          | Some false => true
          | Some true =>
              match py_getitem v "option" with
              | None => false
              | Some _ => true
              end
          end
      end
  end.

Definition chains_verdict (r : reply) : bool :=
  match r with
  | Raises _ => false
  | Response code body =>
      if code =? 200
      then match body with Some data => chain_report data | None => false end
      else false
  end.

Definition test_user_profile (net : Network) (key : option string) (log : Log)
  : bool * Log :=
  let (r, log') := http_get net (profile_request key) log in
  (plain_verdict r, log').

Definition test_market_quotes (net : Network) (key : option string) (log : Log)
  : bool * Log :=
  let (r, log') := http_get net (quotes_request key) log in
  (plain_verdict r, log').

Definition test_options_chains (net : Network) (key : option string) (log : Log)
  : bool * Log :=
  let (r, log') := http_get net (chains_request key) log in
  (chains_verdict r, log').

Definition test_options_expirations (net : Network) (key : option string)
  (log : Log) : bool * Log :=
  let (r, log') := http_get net (expirations_request key) log in
  (plain_verdict r, log').

(** What the summary of [main] prints. *)
Record Summary : Type := mkSummary {
  results : list (string * bool);
  passed : nat;
  total : nat;
  all_passed : bool
}.

(** [not TRADIER_API_KEY]. *)
Definition key_missing (key : option string) : bool :=
  match key with
  | None => true
  | Some k => (k =? "")%string
  end.

(** [main]: [None] when it stops at the missing key. *)
Definition main (net : Network) (key : option string) (log : Log)
  : option Summary * Log :=
  if key_missing key then (None, log)
  else
    let (r1, log1) := test_user_profile net key log in
    let (r2, log2) := test_market_quotes net key log1 in
    let (r3, log3) := test_options_expirations net key log2 in
    let (r4, log4) := test_options_chains net key log3 in
    let results := [("User Profile"%string, r1); ("Market Quotes"%string, r2);
                    ("Options Expirations"%string, r3);
                    ("Options Chains"%string, r4)] in
    let passed := length (filter (fun x => snd x) results) in
    let total := length results in
    (Some (mkSummary results passed total (passed =? total)%nat), log4).

End TradierApi.

Module TradierDetailed.

Inductive Verdict : Type :=
| Success
| AuthenticationFailed
| Forbidden
| Failed
| TimedOut
| RequestError
| UnexpectedError.

Definition endpoints : list (string * string) :=
  [ ("Sandbox User Profile", "https://sandbox.tradier.com/v1/user/profile");
    ("Sandbox Market Data",
     "https://sandbox.tradier.com/v1/markets/quotes?symbols=SPY");
    ("Production User Profile", "https://api.tradier.com/v1/user/profile")
  ]%string.

Definition request (key : string) (u : string) : Request :=
  {| url := u;
     authorization := bearer (Some key);
     accept := "application/json";
     params := [];
     timeout := Some 10 |}.

(** The verdict printed for one endpoint. *)
Definition verdict_of (r : reply) : Verdict :=
  match r with
  | Raises Timeout => TimedOut
  | Raises RequestException => RequestError
  | Raises _ => UnexpectedError
  | Response code _ =>
      if code =? 200 then Success
      else if code =? 401 then AuthenticationFailed
      else if code =? 403 then Forbidden
      else Failed
  end.

(** The loop over the endpoints. *)
Fixpoint probe (net : Network) (key : string) (eps : list (string * string))
  (log : Log) : list (string * Verdict) * Log :=
  match eps with
  | [] => ([], log)
  | (name, u) :: rest =>
      let (r, log1) := http_get net (request key u) log in
      let (vs, log2) := probe net key rest log1 in
      ((name, verdict_of r) :: vs, log2)
  end.

(** [test_api_detailed]: the exception that ends the run, or the
    verdicts. *)
Definition test_api_detailed (net : Network) (key : option string) (log : Log)
  : (exn + list (string * Verdict)) * Log :=
  match key with
  | None => (inl TypeError, log)              (* TRADIER_API_KEY[:15] *)
  | Some k =>
      let (vs, log') := probe net k endpoints log in
      match k with
      | EmptyString => (inl IndexError, log')  (* TRADIER_API_KEY[0] *)
      | String _ _ => (inr vs, log')
      end
  end.

End TradierDetailed.

(* ------------------------------------------------------------------ *)
(** ** Sample data: the four-trade ledger of the worked scenarios *)

Definition sample_trade (d : Z) (ty sym st : string) (p : Q) (dl : Q)
  (cat : string) : Trade :=
  {| openDate := d * NS_PER_DAY; closeDate := (d + 7) * NS_PER_DAY;
     type := ty; symbol := sym; status := st; quantity := 1;
     pnl := p; returnPct := (12 # 100); daysInTrade := 7;
     estimated_delta := dl; delta_category := cat;
     winning_trade := Qlt_bool 0 p; month := to_period_M (d * NS_PER_DAY) |}.

Definition sample_store : DataFrame :=
  [ sample_trade 19783 "Iron Condor" "SPY" "closed" 100 0 "Neutral";
    sample_trade 19784 "Short Put Spread" "QQQ" "expired" (-50) 30 "Bullish";
    sample_trade 19785 "Iron Condor" "SPY" "closed" 200 0 "Neutral";
    sample_trade 19786 "Short Call Spread" "IWM" "expired" (-20) (-10) "Bearish" ].

Definition only_symbol (s : string) : Filters :=
  {| selected_strategy := ALL; selected_status := ALL;
     selected_symbol := s; date_range := [] |}.

Definition only_dates (a b : Date) : Filters :=
  {| selected_strategy := ALL; selected_status := ALL;
     selected_symbol := ALL; date_range := [a; b] |}.

(** Scenario 3: a symbol filter that matches nothing. *)
Definition no_match : DataFrame := filtered_df sample_store (only_symbol "ZZZ").

(** Scenario 2: the trades closed early. *)
Definition closed_only : DataFrame :=
  filtered_df sample_store
    {| selected_strategy := ALL; selected_status := "closed";
       selected_symbol := ALL; date_range := [] |}.

(* ------------------------------------------------------------------ *)
(** ** Missing cells

    [read_csv] does not load every label cell as text: a cell that holds
    one of the texts below (the defaults of pandas 2) is stored as the
    missing value NaN.  A date cell that is missing stays missing through
    [to_datetime], as NaT. *)

Definition NA_VALUES : list string :=
  [ EmptyString; "#N/A"; "#N/A N/A"; "#NA"; "-1.#IND"; "-1.#QNAN"; "-NaN";
    "-nan"; "1.#IND"; "1.#QNAN"; "<NA>"; "N/A"; "NA"; "NULL"; "NaN"; "None";
    "n/a"; "nan"; "null" ]%string.

Definition isna (s : string) : bool := existsb (String.eqb s) NA_VALUES.

(** A label cell as the store holds it. *)
Inductive label : Type :=
| Text (s : string)
| Missing.

Definition read_label (s : string) : label :=
  if isna s then Missing else Text s.

(** NaT, the [int64] below the least instant. *)
Definition NaT : Timestamp := - (2 ^ 63).

Definition notnat (t : Timestamp) : bool := negb (t =? NaT).

(** No label of the column is missing; no open date is missing. *)
Definition labels_present (col : Trade -> string) (df : DataFrame) : Prop :=
  forall r, In r df -> isna (col r) = false.

Definition dates_present (df : DataFrame) : Prop :=
  forall r, In r df -> openDate r <> NaT.

(** [DataFrame.groupby] leaves out the rows in which a key is missing
    (its default [dropna=True]) and groups the others. *)
Definition dropna (keys : list (Trade -> string)) (df : DataFrame) : DataFrame :=
  filter (fun r => forallb (fun key => negb (isna (key r))) keys) df.

Definition groupby_dropna (key : Trade -> string) (df : DataFrame)
  : list (string * DataFrame) :=
  groupby_str key (dropna [key] df).

Definition groupby2_dropna (key1 key2 : Trade -> string) (df : DataFrame)
  : list ((string * string) * DataFrame) :=
  groupby_pair (fun r => (key1 r, key2 r)) (dropna [key1; key2] df).

(* ------------------------------------------------------------------ *)
(** ** Sidebar option lists and defaults (lines 69-86) *)

(** [Series.unique()]: the distinct values, in order of first appearance. *)
Fixpoint unique (l : list string) : list string :=
  match l with
  | [] => []
  | x :: l' => x :: filter (fun y => negb (y =? x)%string) (unique l')
  end.

(** [sorted(...)] on a list of labels. *)
Definition sorted (l : list string) : list string := stable_sort String.ltb l.

(** The same two steps on a column that may hold missing cells:
    [unique()] keeps one NaN for all of them, and [sorted] raises a
    [TypeError] ([None]) when it has to compare a text with that NaN. *)
Definition label_eqb (x y : label) : bool :=
  match x, y with
  | Text a, Text b => (a =? b)%string
  | Missing, Missing => true
  | _, _ => false
  end.

Definition is_text (x : label) : bool :=
  match x with
  | Text _ => true
  | Missing => false
  end.

Definition label_ltb (x y : label) : bool :=
  match x, y with
  | Text a, Text b => String.ltb a b
  | _, _ => false
  end.

Fixpoint unique_labels (l : list label) : list label :=
  match l with
  | [] => []
  | x :: l' => x :: filter (fun y => negb (label_eqb y x)) (unique_labels l')
  end.

Definition py_sorted (l : list label) : option (list label) :=
  if existsb is_text l && existsb (fun x => negb (is_text x)) l then None
  else Some (stable_sort label_ltb l).

(** [['All'] + sorted(df[col].unique().tolist())]. *)
Definition options_of (col : Trade -> string) (df : DataFrame)
  : option (list label) :=
  match py_sorted (unique_labels (map (fun r => read_label (col r)) df)) with
  | Some l => Some (Text ALL :: l)
  | None => None
  end.

Definition strategies (df : DataFrame) := options_of type df.
Definition statuses (df : DataFrame) := options_of status df.
Definition symbols (df : DataFrame) := options_of symbol df.

(** [Series.min()] and [Series.max()] on a column of timestamps skip the
    missing cells; [None] is the NaT they return when nothing is left. *)
Definition timestamp_min (l : list Timestamp) : option Timestamp :=
  match filter notnat l with
  | [] => None
  | x :: l' => Some (fold_left Z.min l' x)
  end.

Definition timestamp_max (l : list Timestamp) : option Timestamp :=
  match filter notnat l with
  | [] => None
  | x :: l' => Some (fold_left Z.max l' x)
  end.

(** The widget state before the user touches anything: the first entry
    of each select box, and the date input on the days of the earliest and
    the latest [openDate].  On a store without rows the two bounds are
    missing and the script gets no further; that is [None]. *)
Definition default_filters (df : DataFrame) : option Filters :=
  match timestamp_min (map openDate df), timestamp_max (map openDate df) with
  | Some a, Some b =>
      Some {| selected_strategy := ALL; selected_status := ALL;
              selected_symbol := ALL; date_range := [dt_date a; dt_date b] |}
  | _, _ => None
  end.

(* ------------------------------------------------------------------ *)
(** ** Overview tab (lines 124-277) *)

(** [x >= q] for a Python float [x]: infinity is above every number, NaN
    compares false. *)
Definition float_geb (x : pyfloat) (q : Q) : bool :=
  match x with
  | Finite a => Qle_bool q a
  | PosInf => true
  | NaN => false
  end.

(** Lines 139 and 161: the verdict shown for a computed figure. *)
Definition win_rate_verdict (win_rate : pyfloat) : string :=
  if float_geb win_rate 75 then "Above Target" else "Below Target".

Definition profit_factor_verdict (profit_factor : pyfloat) : string :=
  if float_geb profit_factor 2 then "Excellent"
  else if float_geb profit_factor (3 # 2) then "Good"
  else "Poor".

Definition win_rate_label (df : DataFrame) : string :=
  win_rate_verdict (win_rate df).

Definition profit_factor_label (df : DataFrame) : string :=
  profit_factor_verdict (profit_factor df).

(** [Series.max()] and [Series.min()]: NaN on the empty series. *)
Definition series_max (s : list Q) : pyfloat :=
  match s with
  | [] => NaN
  | x :: s' => Finite (fold_left (fun m y => if Qlt_bool m y then y else m) s' x)
  end.

Definition series_min (s : list Q) : pyfloat :=
  match s with
  | [] => NaN
  | x :: s' => Finite (fold_left (fun m y => if Qlt_bool y m then y else m) s' x)
  end.

(** Lines 166-170. *)
Definition best_trade (df : DataFrame) : pyfloat := series_max (pnl_col df).
Definition worst_trade (df : DataFrame) : pyfloat := series_min (pnl_col df).

(** Lines 244-254: the two rows (result, count, total pnl). *)
Definition non_wins (df : DataFrame) : DataFrame :=
  filter (fun r => Qle_bool (pnl r) 0) df.

Definition win_loss (df : DataFrame) : list (string * nat * Q) :=
  [ ("Wins"%string, length (wins df), series_sum (pnl_col (wins df)));
    ("Losses"%string, length (non_wins df), series_sum (pnl_col (non_wins df))) ].

(* ------------------------------------------------------------------ *)
(** ** Strategy tab: profit factor per strategy (lines 296-304, 374-375) *)

Definition strategy_trades (strategy : string) (df : DataFrame) : DataFrame :=
  filter (fun r => (type r =? strategy)%string) df.

(** The loop over [strategy_stats.index]. *)
Definition profit_factors (df : DataFrame) : list pyfloat :=
  map (fun row => profit_factor (strategy_trades (fst row) df))
      (strategy_stats df).

(** [strategy_stats['Profit_Factor'] = profit_factors]: the assignment
    of a list as a column raises unless the lengths agree ([None]). *)
Definition with_profit_factor (df : DataFrame)
  : option (list (string * Strategy.row * pyfloat)) :=
  if (length (profit_factors df) =? length (strategy_stats df))%nat
  then Some (combine (strategy_stats df) (profit_factors df))
  else None.

(** [x != float('inf')]. *)
Definition is_not_inf (x : pyfloat) : bool :=
  match x with
  | PosInf => false
  | _ => true
  end.

(** Lines 374-375: the rows charted, strategy and profit factor. *)
Definition pf_data (df : DataFrame) : option (list (string * pyfloat)) :=
  match with_profit_factor df with
  | Some t =>
      Some (filter (fun x => is_not_inf (snd x))
              (map (fun x => (fst (fst x), snd x)) t))
  | None => None
  end.

(* ------------------------------------------------------------------ *)
(** ** Status tab: row lookup and pivot (lines 418-440, 494-495) *)

(** [k in table.index]. *)
Definition in_index {R} (k : string) (t : list (string * R)) : bool :=
  existsb (fun x => (fst x =? k)%string) t.

(** [table.loc[k]]; [None] is the [KeyError] of an absent label. *)
Definition loc {R} (k : string) (t : list (string * R)) : option R :=
  match find (fun x => (fst x =? k)%string) t with
  | Some x => Some (snd x)
  | None => None
  end.

(** Line 440: the multiplier is shown when both rows exist. *)
Definition shows_multiplier (df : DataFrame) : bool :=
  in_index "closed" (status_stats df) && in_index "expired" (status_stats df).

Fixpoint has_duplicates (l : list (string * string)) : bool :=
  match l with
  | [] => false
  | x :: l' => existsb (pair_eqb x) l' || has_duplicates l'
  end.

(** [t.pivot(index='type', columns='status', values=...)]: the row
    labels, the column labels and the dense grid of cells, NaN where the
    table has no entry; [None] is the [ValueError] pandas raises when two
    entries share their row and column. *)
Definition pivot (value : Pnl.row -> Q) (t : list ((string * string) * Pnl.row))
  : option (list string * list string * list (list pyfloat)) :=
  if has_duplicates (map fst t) then None
  else
    let index := sorted (unique (map (fun x => fst (fst x)) t)) in
    let columns := sorted (unique (map (fun x => snd (fst x)) t)) in
    let cell i c :=
        match find (fun x => pair_eqb (fst x) (i, c)) t with
        | Some x => Finite (value (snd x))
        | None => NaN
        end in
    Some (index, columns, map (fun i => map (cell i) columns) index).

Definition pivot_total (df : DataFrame) :=
  pivot Pnl.Total_PnL (status_strategy df).

(** The records of one strategy and one status. *)
Definition cell_trades (ty st : string) (df : DataFrame) : DataFrame :=
  filter (fun r => pair_eqb (type r, status r) (ty, st)) df.

(** [gs] splits [df] by [key]: the group labels are distinct, the group
    of a label is not empty and holds the rows of [df] with that label in
    frame order, every row is in the group of its label, and the groups
    together hold the rows of [df], each once. *)
Definition partitions {K} (key_eqb : K -> K -> bool) (key : Trade -> K)
  (df : DataFrame) (gs : list (K * DataFrame)) : Prop :=
  NoDup (map fst gs) /\
  (forall k g, In (k, g) gs ->
               g <> [] /\ g = filter (fun r => key_eqb (key r) k) df) /\
  (forall r, In r df -> exists g, In (key r, g) gs /\ In r g) /\
  Permutation (concat (map snd gs)) df.

(** The QQQ trade of the ledger, alone after a symbol filter. *)
Definition qqq_trade : Trade :=
  sample_trade 19784 "Short Put Spread" "QQQ" "expired" (-50) 30 "Bullish".

(** A ledger on which the trades closed early lose money. *)
Definition closed_loses : DataFrame :=
  [ sample_trade 19783 "Iron Condor" "SPY" "closed" (-10) 0 "Neutral";
    sample_trade 19784 "Short Put Spread" "QQQ" "expired" 20 30 "Bullish" ].

(** A pnl column in dollars and cents. *)
#[warnings="-inexact-float"]
Definition ledger_cents : list float := [100.1; -50.35; 200.25; -20.15]%float.

(** The figures it gives, as Python prints them. *)
#[warnings="-inexact-float"]
Definition total_cents : float := 229.85%float.

#[warnings="-inexact-float"]
Definition gross_difference_cents : float := 229.85000000000002%float.

(** A store whose second open date is missing. *)
Definition date_missing : DataFrame :=
  [ sample_trade 19783 "Iron Condor" "SPY" "closed" 100 0 "Neutral";
    {| openDate := NaT; closeDate := 19791 * NS_PER_DAY;
       type := "Iron Condor"; symbol := "QQQ"; status := "closed";
       quantity := 1; pnl := 50; returnPct := (12 # 100); daysInTrade := 7;
       estimated_delta := 0; delta_category := "Neutral";
       winning_trade := true; month := "NaT" |} ].

(** A store whose second symbol cell is empty in the file. *)
Definition symbol_missing : DataFrame :=
  [ sample_trade 19783 "Iron Condor" "SPY" "closed" 100 0 "Neutral";
    sample_trade 19784 "Iron Condor" EmptyString "closed" 50 0 "Neutral" ].

(** Twenty trades, with pnl -70, -60, ..., 120. *)
Definition ledger20 : DataFrame :=
  map (fun i : nat =>
         sample_trade (19783 + Z.of_nat i) "Iron Condor" "SPY" "closed"
           (inject_Z (10 * Z.of_nat i - 70)) 0 "Neutral")
      (seq 0 20).

(* ================================================================== *)
(** * Properties *)

(** ** Arithmetic helpers *)

Lemma Qlt_bool_iff (x y : Q) : Qlt_bool x y = true <-> (x < y)%Q.
Proof.
  unfold Qlt_bool. rewrite negb_true_iff.
  split; intro H.
  - apply Qnot_le_lt. intro Hle. apply Qle_bool_iff in Hle. congruence.
  - destruct (Qle_bool y x) eqn:E; [|reflexivity].
    apply Qle_bool_iff in E. exfalso. apply (Qlt_not_le _ _ H E).
Qed.

Lemma Qlt_bool_false_iff (x y : Q) : Qlt_bool x y = false <-> (y <= x)%Q.
Proof.
  unfold Qlt_bool. rewrite negb_false_iff. apply Qle_bool_iff.
Qed.


Lemma losses_sum_nonpos (df : DataFrame) :
  (series_sum (pnl_col (losses df)) <= 0)%Q.
Proof.
  induction df as [|r df IH]; simpl.
  - apply Qle_refl.
  - destruct (Qlt_bool (pnl r) 0) eqn:E; simpl; [|exact IH].
    apply Qlt_bool_iff in E.
    change (fold_right Qplus 0%Q (map pnl (losses df)))
      with (series_sum (pnl_col (losses df))) in *.
    lra.
Qed.


Lemma gross_loss_opp (df : DataFrame) :
  (gross_loss df == - series_sum (pnl_col (losses df)))%Q.
Proof.
  unfold gross_loss. apply Qabs_neg, losses_sum_nonpos.
Qed.

(** ** Filtering *)

Lemma filter_twice {A} (p q : A -> bool) (l : list A) :
  filter q (filter p l) = filter (fun x => p x && q x) l.
Proof.
  induction l as [|x l IH]; simpl; [reflexivity|].
  destruct (p x); simpl; [destruct (q x)|]; rewrite IH; reflexivity.
Qed.

Lemma filter_true {A} (l : list A) : filter (fun _ => true) l = l.
Proof. induction l as [|x l IH]; simpl; [|rewrite IH]; reflexivity. Qed.

Lemma filter_Subseq {A} (p : A -> bool) (l : list A) : Subseq (filter p l) l.
Proof.
  induction l as [|x l IH]; simpl; [constructor|].
  destruct (p x); constructor; exact IH.
Qed.

Lemma count_occ_filter_true (p : Trade -> bool) (r : Trade) (l : DataFrame) :
  p r = true ->
  count_occ Trade_eq_dec (filter p l) r = count_occ Trade_eq_dec l r.
Proof.
  intro Hp. induction l as [|x l IH]; simpl; [reflexivity|].
  destruct (p x) eqn:Ex; simpl.
  - destruct (Trade_eq_dec x r); rewrite IH; reflexivity.
  - destruct (Trade_eq_dec x r) as [->|_]; [congruence|exact IH].
Qed.

Lemma holds_eqb_iff (c : option string) (v : string) :
  holds_eqb c v = true <-> holds_eq c v.
Proof.
  destruct c as [s|]; simpl; [apply String.eqb_eq|tauto].
Qed.

Lemma holds_rangeb_iff (c : option (Date * Date)) (t : Timestamp) :
  holds_rangeb c t = true <-> holds_range c t.
Proof.
  destruct c as [[a b]|]; simpl; [|tauto].
  rewrite andb_true_iff, !Z.leb_le. tauto.
Qed.

Lemma satisfiesb_iff (c : Criteria) (r : Trade) :
  satisfiesb c r = true <-> satisfies c r.
Proof.
  unfold satisfiesb, satisfies.
  rewrite !andb_true_iff, !holds_eqb_iff, holds_rangeb_iff. tauto.
Qed.

Lemma eq_mask (sel : string) (col : Trade -> string) (l : DataFrame) :
  (if negb (sel =? ALL)%string
   then filter (fun r => (col r =? sel)%string) l else l)
  = filter (fun r => holds_eqb (eq_constraint sel) (col r)) l.
Proof.
  unfold eq_constraint. destruct (sel =? ALL)%string; simpl.
  - symmetry. apply filter_true.
  - reflexivity.
Qed.

Lemma range_mask (dr : list Date) (l : DataFrame) :
  (if (length dr =? 2)%nat
   then filter (fun r => (nth 0 dr 0 <=? dt_date (openDate r)) &&
                         (dt_date (openDate r) <=? nth 1 dr 0)) l
   else l)
  = filter (fun r => holds_rangeb (range_constraint dr) (openDate r)) l.
Proof.
  destruct dr as [|a [|b [|c dr]]]; simpl;
    try (symmetry; apply filter_true); reflexivity.
Qed.

Lemma filtered_df_filter (df : DataFrame) (w : Filters) :
  filtered_df df w = filter (satisfiesb (criteria_of w)) df.
Proof.
  unfold filtered_df. cbv zeta.
  rewrite range_mask, !eq_mask, !filter_twice.
  apply filter_ext. intro r. unfold satisfiesb, criteria_of. simpl.
  rewrite !andb_assoc. reflexivity.
Qed.

(** Criteria that do not use the reserved label are expressible. *)
Lemma criteria_of_widgets_of (c : Criteria) :
  on_strategy c <> Some ALL -> on_status c <> Some ALL ->
  on_symbol c <> Some ALL ->
  criteria_of (widgets_of c) = c.
Proof.
  destruct c as [a b s d]; simpl. intros Ha Hb Hs.
  unfold criteria_of, widgets_of, eq_constraint; simpl.
  assert (E : forall o : option string, o <> Some ALL ->
            (if (match o with Some x => x | None => ALL end =? ALL)%string
             then None else Some (match o with Some x => x | None => ALL end))
            = o).
  { intros [x|] Hx; simpl; [|reflexivity].
    destruct (x =? ALL)%string eqn:E; [|reflexivity].
    apply String.eqb_eq in E. subst. congruence. }
  rewrite (E a Ha), (E b Hb), (E s Hs).
  destruct d as [[x y]|]; reflexivity.
Qed.



(** C9.  A date input holding a reversed interval selects no record. *)
Theorem reversed_range_is_empty (df : DataFrame) (w : Filters) (a b : Date) :
  date_range w = [a; b] -> b < a -> filtered_df df w = [].
Proof.
  intros Hdr Hlt. rewrite filtered_df_filter.
  induction df as [|r df IH]; simpl; [reflexivity|].
  rewrite IH.
  replace (satisfiesb (criteria_of w) r) with false; [reflexivity|].
  symmetry. unfold satisfiesb, criteria_of. simpl. rewrite Hdr. simpl.
  destruct (a <=? dt_date (openDate r)) eqn:E1;
    destruct (dt_date (openDate r) <=? b) eqn:E2;
    rewrite ?andb_false_r; try reflexivity.
  apply Z.leb_le in E1, E2. lia.
Qed.

Lemma reversed_range_is_empty_witness :
  filtered_df sample_store (only_dates 19786 19783) = [].
Proof.
  apply (reversed_range_is_empty sample_store (only_dates 19786 19783)
           19786 19783); [reflexivity | lia].
Defined.

(** ** Headline metrics *)

(** C1, as stated, fails on the empty subset of scenario 3: the win rate
    is the number 0 and the profit factor is infinite, neither is the
    missing-value marker. *)
Lemma metrics_on_empty_counterexample :
  total_trades no_match = 0%nat /\
  ~ (avg_pnl no_match = NaN /\ median_pnl no_match = NaN /\
     win_rate no_match = NaN /\ profit_factor no_match = NaN /\
     total_pnl no_match = 0%Q).
Proof.
  split; [reflexivity|].
  intros (_ & _ & Hw & _). vm_compute in Hw. discriminate Hw.
Qed.

(** C1 (amended).  On a subset without records nothing is divided: the
    average and the median are the missing-value marker NaN, the win rate
    is 0 by its guard, the profit factor is infinite by its guard, and the
    count, the total and both gross figures are 0. *)
Theorem metrics_on_empty_subset (df : DataFrame) :
  total_trades df = 0%nat ->
  avg_pnl df = NaN /\ median_pnl df = NaN /\
  win_rate df = Finite 0 /\ profit_factor df = PosInf /\
  total_pnl df = 0%Q /\ gross_profit df = 0%Q /\ gross_loss df = 0%Q.
Proof.
  destruct df as [|r df]; [|discriminate].
  intros _. repeat split.
Qed.

Lemma metrics_on_empty_subset_witness :
  avg_pnl no_match = NaN /\ median_pnl no_match = NaN /\
  win_rate no_match = Finite 0 /\ profit_factor no_match = PosInf /\
  total_pnl no_match = 0%Q /\ gross_profit no_match = 0%Q /\
  gross_loss no_match = 0%Q.
Proof.
  apply (metrics_on_empty_subset no_match). reflexivity.
Defined.

Lemma losses_negative (df : DataFrame) (r : Trade) :
  In r (losses df) <-> In r df /\ (pnl r < 0)%Q.
Proof. unfold losses. rewrite filter_In, Qlt_bool_iff. tauto. Qed.

Lemma losses_sum_neg (df : DataFrame) (r : Trade) :
  In r df -> (pnl r < 0)%Q -> (series_sum (pnl_col (losses df)) < 0)%Q.
Proof.
  intros Hin Hneg. induction df as [|x df IH]; [destruct Hin|].
  simpl. pose proof (losses_sum_nonpos df) as Hle.
  destruct Hin as [->|Hin].
  - apply Qlt_bool_iff in Hneg as Hb. rewrite Hb. simpl.
    fold (series_sum (pnl_col (losses df))). lra.
  - specialize (IH Hin).
    destruct (Qlt_bool (pnl x) 0) eqn:E; simpl; [|exact IH].
    apply Qlt_bool_iff in E.
    fold (series_sum (pnl_col (losses df))). lra.
Qed.

Lemma losses_none (df : DataFrame) :
  (forall r, In r df -> ~ (pnl r < 0)%Q) -> losses df = [].
Proof.
  intro H. induction df as [|x df IH]; [reflexivity|].
  simpl. destruct (Qlt_bool (pnl x) 0) eqn:E.
  - apply Qlt_bool_iff in E. exfalso. apply (H x); [left; reflexivity|exact E].
  - apply IH. intros r Hr. apply H. right. exact Hr.
Qed.


Lemma gross_loss_zero_iff (df : DataFrame) :
  (gross_loss df == 0)%Q <-> (forall r, In r df -> ~ (pnl r < 0)%Q).
Proof.
  split.
  - intros Hz r Hin Hneg.
    pose proof (losses_sum_neg df r Hin Hneg) as Hs.
    rewrite gross_loss_opp in Hz. lra.
  - intro H. unfold gross_loss. rewrite (losses_none df H). reflexivity.
Qed.

(** C2.  The profit factor is infinite exactly when the gross loss is 0,
    that is when no record has a negative pnl, whatever the gross profit;
    otherwise it is the gross profit over the gross loss.  The gross
    profit is the sum of the positive pnl, the gross loss the absolute
    value of the sum of the negative pnl. *)
Theorem profit_factor_cases (df : DataFrame) :
  gross_profit df = series_sum (map pnl (filter (fun r => Qlt_bool 0 (pnl r)) df)) /\
  gross_loss df = Qabs (series_sum (map pnl (filter (fun r => Qlt_bool (pnl r) 0) df))) /\
  ((gross_loss df == 0)%Q <-> (forall r, In r df -> ~ (pnl r < 0)%Q)) /\
  ((gross_loss df == 0)%Q -> profit_factor df = PosInf) /\
  ((0 < gross_loss df)%Q ->
   profit_factor df = Finite (gross_profit df / gross_loss df)).
Proof.
  split; [reflexivity|]. split; [reflexivity|].
  split; [apply gross_loss_zero_iff|].
  unfold profit_factor. split; intro H.
  - destruct (Qlt_bool 0 (gross_loss df)) eqn:E; [|reflexivity].
    apply Qlt_bool_iff in E. lra.
  - apply Qlt_bool_iff in H. rewrite H. reflexivity.
Qed.

Lemma profit_factor_cases_witness :
  profit_factor closed_only = PosInf /\
  profit_factor [] = PosInf /\
  profit_factor sample_store
  = Finite (gross_profit sample_store / gross_loss sample_store).
Proof.
  split; [|split].
  - apply (profit_factor_cases closed_only). reflexivity.
  - apply (profit_factor_cases []). reflexivity.
  - apply (profit_factor_cases sample_store). reflexivity.
Defined.

(** ** Delta bias *)

(** C7, as stated, fails: the rule does not follow a configured
    threshold.  With the threshold set to 10 a total of 20 would be
    Bullish; the script answers Neutral. *)
Lemma bias_threshold_counterexample :
  (total_delta sample_store == 20)%Q /\
  bias_with_threshold 10 sample_store = "Bullish"%string /\
  bias sample_store <> bias_with_threshold 10 sample_store.
Proof.
  split; [reflexivity|]. split; [reflexivity|].
  vm_compute. discriminate.
Qed.

(** C7 (amended).  The bias is Bullish exactly when the total delta is
    above 50, Bearish exactly when it is below -50, and Neutral otherwise;
    the threshold is the literal 50 of the script. *)
Theorem bias_rule (df : DataFrame) :
  (bias df = "Bullish"%string <-> (50 < total_delta df)%Q) /\
  (bias df = "Bearish"%string <-> (total_delta df < -50)%Q) /\
  (bias df = "Neutral"%string <-> (-50 <= total_delta df <= 50)%Q) /\
  bias df = bias_with_threshold 50 df.
Proof.
  unfold bias, bias_with_threshold.
  change (- (50))%Q with (-50)%Q.
  destruct (Qlt_bool 50 (total_delta df)) eqn:E1;
    destruct (Qlt_bool (total_delta df) (-50)) eqn:E2;
    try apply Qlt_bool_iff in E1; try apply Qlt_bool_iff in E2;
    try apply Qlt_bool_false_iff in E1; try apply Qlt_bool_false_iff in E2;
    (repeat split; intros; try discriminate; try reflexivity; try lra).
Qed.

Lemma bias_rule_witness :
  bias sample_store = "Neutral"%string /\ bias closed_loses = "Neutral"%string.
Proof.
  split.
  - destruct (bias_rule sample_store) as (_ & _ & H & _).
    apply H. vm_compute. split; discriminate.
  - destruct (bias_rule closed_loses) as (_ & _ & H & _).
    apply H. vm_compute. split; discriminate.
Defined.

(** ** Stable sorting *)

Section StableSortFacts.
Context {A : Type}.
Variable before : A -> A -> bool.

Lemma insert_sorted_perm (x : A) (l : list A) :
  Permutation (insert_sorted before x l) (x :: l).
Proof.
  induction l as [|y l IH]; simpl; [apply Permutation_refl|].
  destruct (before y x); [|apply Permutation_refl].
  eapply perm_trans; [apply perm_skip, IH|apply perm_swap].
Qed.

Lemma stable_sort_perm (l : list A) : Permutation (stable_sort before l) l.
Proof.
  induction l as [|x l IH]; simpl; [constructor|].
  eapply perm_trans; [apply insert_sorted_perm|].
  apply perm_skip, IH.
Qed.

Lemma stable_sort_length (l : list A) :
  length (stable_sort before l) = length l.
Proof. apply Permutation_length, stable_sort_perm. Qed.

(** Rows of one class, none of which is strictly ahead of another, keep
    their input order. *)
Lemma insert_sorted_filter (p : A -> bool) (x : A) (l : list A) :
  (forall y, In y l -> p y = true -> p x = true -> before y x = false) ->
  filter p (insert_sorted before x l) = filter p (x :: l).
Proof.
  induction l as [|y l IH]; intro H; [reflexivity|].
  simpl. destruct (before y x) eqn:E; [|reflexivity].
  simpl. rewrite IH by (intros z Hz; apply H; right; exact Hz).
  simpl. destruct (p y) eqn:Ey; [|reflexivity].
  destruct (p x) eqn:Ex; [|reflexivity].
  rewrite (H y (or_introl eq_refl) Ey eq_refl) in E. discriminate E.
Qed.

Lemma stable_sort_filter (p : A -> bool) (l : list A) :
  (forall x y, p x = true -> p y = true -> before x y = false) ->
  filter p (stable_sort before l) = filter p l.
Proof.
  intro H. induction l as [|x l IH]; [reflexivity|].
  simpl stable_sort. rewrite insert_sorted_filter.
  - simpl. rewrite IH. reflexivity.
  - intros y _ Hy Hx. apply H; assumption.
Qed.

Hypothesis before_asym : forall x y, before x y = true -> before y x = false.
Hypothesis before_negtrans :
  forall x y z, before y x = false -> before z y = false -> before z x = false.

Lemma insert_sorted_sorted (x : A) (l : list A) :
  StronglySorted (fun a b => before b a = false) l ->
  StronglySorted (fun a b => before b a = false) (insert_sorted before x l).
Proof.
  induction l as [|y l IH]; intro Hs; simpl.
  - constructor; constructor.
  - apply StronglySorted_inv in Hs. destruct Hs as [Hs Hy].
    destruct (before y x) eqn:E.
    + constructor; [apply IH, Hs|].
      apply Forall_forall. intros z Hz.
      apply (Permutation_in _ (insert_sorted_perm x l)) in Hz.
      destruct Hz as [<-|Hz]; [apply before_asym, E|].
      rewrite Forall_forall in Hy. apply Hy, Hz.
    + constructor; [constructor; assumption|].
      constructor; [exact E|].
      apply Forall_forall. intros z Hz.
      rewrite Forall_forall in Hy.
      apply (before_negtrans x y z E). apply Hy, Hz.
Qed.

Lemma stable_sort_sorted (l : list A) :
  StronglySorted (fun a b => before b a = false) (stable_sort before l).
Proof.
  induction l as [|x l IH]; simpl; [constructor|].
  apply insert_sorted_sorted, IH.
Qed.
End StableSortFacts.

Lemma StronglySorted_weaken {A} (R R' : A -> A -> Prop) (l : list A) :
  (forall x y, R x y -> R' x y) -> StronglySorted R l -> StronglySorted R' l.
Proof.
  intros H Hs. induction Hs as [|a l Hs IH Ha]; constructor; [exact IH|].
  eapply Forall_impl; [|exact Ha]. intros b. apply H.
Qed.

Lemma StronglySorted_app {A} (R : A -> A -> Prop) (l1 l2 : list A) :
  StronglySorted R (l1 ++ l2) ->
  StronglySorted R l1 /\ StronglySorted R l2 /\
  (forall x y, In x l1 -> In y l2 -> R x y).
Proof.
  induction l1 as [|a l1 IH]; simpl; intro Hs.
  - split; [constructor|]. split; [exact Hs|]. intros x y [].
  - apply StronglySorted_inv in Hs. destruct Hs as [Hs Ha].
    destruct (IH Hs) as (H1 & H2 & H3).
    rewrite Forall_forall in Ha.
    split; [|split; [exact H2|]].
    + constructor; [exact H1|]. apply Forall_forall. intros z Hz.
      apply Ha, in_or_app. left. exact Hz.
    + intros x y [<-|Hx] Hy; [|apply H3; assumption].
      apply Ha, in_or_app. right. exact Hy.
Qed.

Lemma filter_firstn_Prefix {A} (p : A -> bool) (n : nat) (l : list A) :
  Prefix (filter p (firstn n l)) (filter p l).
Proof.
  exists (filter p (skipn n l)).
  rewrite <- filter_app, firstn_skipn. reflexivity.
Qed.

Lemma filter_length_perm {A} (p : A -> bool) (l l' : list A) :
  Permutation l l' -> length (filter p l) = length (filter p l').
Proof.
  intro H. induction H as [|x l l' _ IH|x y l|l l' l'' _ IH1 _ IH2]; simpl.
  - reflexivity.
  - destruct (p x); simpl; rewrite IH; reflexivity.
  - destruct (p x), (p y); reflexivity.
  - rewrite IH1. exact IH2.
Qed.

Lemma filter_length_lt {A} (p : A -> bool) (x : A) (l : list A) :
  In x l -> p x = false -> (length (filter p l) < length l)%nat.
Proof.
  intros Hin Hp. induction l as [|y l IH]; [destruct Hin|].
  pose proof (filter_length_le p l) as Hle.
  simpl. destruct Hin as [->|Hin].
  - rewrite Hp. lia.
  - specialize (IH Hin). destruct (p y); simpl; lia.
Qed.

Lemma filter_all {A} (p : A -> bool) (l : list A) :
  (forall x, In x l -> p x = true) -> filter p l = l.
Proof.
  intro H. induction l as [|y l IH]; [reflexivity|].
  simpl. rewrite (H y (or_introl eq_refl)). f_equal.
  apply IH. intros x Hx. apply H. right. exact Hx.
Qed.

Lemma filter_none {A} (p : A -> bool) (l : list A) :
  (forall x, In x l -> p x = false) -> filter p l = [].
Proof.
  intro H. induction l as [|y l IH]; [reflexivity|].
  simpl. rewrite (H y (or_introl eq_refl)).
  apply IH. intros x Hx. apply H. right. exact Hx.
Qed.

(** ** Best and worst trades *)

Lemma pnl_desc_asym (x y : Trade) : pnl_desc x y = true -> pnl_desc y x = false.
Proof.
  unfold pnl_desc. rewrite Qlt_bool_iff, Qlt_bool_false_iff. lra.
Qed.

Lemma pnl_desc_negtrans (x y z : Trade) :
  pnl_desc y x = false -> pnl_desc z y = false -> pnl_desc z x = false.
Proof.
  unfold pnl_desc. rewrite !Qlt_bool_false_iff. lra.
Qed.

Lemma pnl_asc_asym (x y : Trade) : pnl_asc x y = true -> pnl_asc y x = false.
Proof.
  unfold pnl_asc. rewrite Qlt_bool_iff, Qlt_bool_false_iff. lra.
Qed.

Lemma pnl_asc_negtrans (x y z : Trade) :
  pnl_asc y x = false -> pnl_asc z y = false -> pnl_asc z x = false.
Proof.
  unfold pnl_asc. rewrite !Qlt_bool_false_iff. lra.
Qed.

Section TopN.
Variable before : Trade -> Trade -> bool.
Variable ahead : Q -> Q -> Prop.
Hypothesis before_asym : forall x y, before x y = true -> before y x = false.
Hypothesis before_negtrans :
  forall x y z, before y x = false -> before z y = false -> before z x = false.
Hypothesis before_ahead :
  forall x y, before y x = false -> ahead (pnl x) (pnl y).
Hypothesis before_ties :
  forall x y, (pnl x == pnl y)%Q -> before x y = false.

Lemma firstn_sorted_selects_top (n : nat) (df : DataFrame) :
  selects_top ahead n df (firstn n (stable_sort before df)).
Proof.
  pose proof (stable_sort_sorted before before_asym before_negtrans df) as Hs.
  rewrite <- (firstn_skipn n (stable_sort before df)) in Hs.
  apply StronglySorted_app in Hs. destruct Hs as (H1 & _ & H3).
  unfold selects_top. repeat split.
  - rewrite length_firstn, stable_sort_length. reflexivity.
  - exists (skipn n (stable_sort before df)). split.
    + rewrite firstn_skipn. apply stable_sort_perm.
    + intros x y Hx Hy. apply before_ahead, H3; assumption.
  - eapply StronglySorted_weaken; [|exact H1].
    intros x y. apply before_ahead.
  - intro v. unfold with_pnl.
    rewrite <- (stable_sort_filter before (fun r => Qeq_bool (pnl r) v) df).
    + apply filter_firstn_Prefix.
    + intros x y Hx Hy. apply before_ties.
      apply Qeq_bool_iff in Hx, Hy. rewrite Hx, Hy. reflexivity.
  - intro Hle. rewrite firstn_all2.
    + apply stable_sort_perm.
    + rewrite stable_sort_length. exact Hle.
Qed.
End TopN.

(** C4.  [nlargest n] and [nsmallest n] return at most [n] rows (exactly
    [n], or all of them when the frame is shorter); the rows returned are
    the largest, respectively smallest, by pnl, listed in that order;
    among rows of one pnl value the earliest of the frame are taken, in
    frame order; a frame of at most [n] rows is returned whole, sorted.
    Both are functions of the frame and of [n], so equal inputs give equal
    outputs. *)
Theorem top_by_pnl_selection (n : nat) (df : DataFrame) :
  (length (nlargest n df) <= n)%nat /\
  (length (nsmallest n df) <= n)%nat /\
  selects_top (fun a b => (b <= a)%Q) n df (nlargest n df) /\
  selects_top (fun a b => (a <= b)%Q) n df (nsmallest n df) /\
  map rk_pnl (best_trades df) = map pnl (nlargest 10 df) /\
  map rk_pnl (worst_trades df) = map pnl (nsmallest 10 df) /\
  (forall df' n', df' = df -> n' = n ->
                  nlargest n' df' = nlargest n df /\
                  nsmallest n' df' = nsmallest n df).
Proof.
  split; [apply firstn_le_length|]. split; [apply firstn_le_length|].
  split; [|split; [|split; [|split]]];
    [| |unfold best_trades; rewrite map_map; reflexivity
       |unfold worst_trades; rewrite map_map; reflexivity|].
  - apply firstn_sorted_selects_top.
    + apply pnl_desc_asym.
    + apply pnl_desc_negtrans.
    + intros x y. unfold pnl_desc. rewrite Qlt_bool_false_iff. tauto.
    + intros x y He. unfold pnl_desc. rewrite Qlt_bool_false_iff, He.
      apply Qle_refl.
  - apply firstn_sorted_selects_top.
    + apply pnl_asc_asym.
    + apply pnl_asc_negtrans.
    + intros x y. unfold pnl_asc. rewrite Qlt_bool_false_iff. tauto.
    + intros x y He. unfold pnl_asc. rewrite Qlt_bool_false_iff, He.
      apply Qle_refl.
  - intros df' n' -> ->. split; reflexivity.
Qed.

Lemma top_by_pnl_selection_witness :
  map pnl (nlargest 2 sample_store) = [200%Q; 100%Q] /\
  Permutation (nlargest 10 sample_store) sample_store.
Proof.
  split; [reflexivity|].
  destruct (top_by_pnl_selection 10 sample_store)
    as (_ & _ & (_ & _ & _ & _ & H) & _).
  apply H. simpl. lia.
Defined.

(** C8.  On a subset of at least twenty records no trade of the ten worst
    has a larger pnl than a trade of the ten best; ties at the boundary do
    not have to be ruled out. *)
Theorem ranking_complement_bound (df : DataFrame) :
  (20 <= length df)%nat ->
  forall b w, In b (best_trades df) -> In w (worst_trades df) ->
              (rk_pnl w <= rk_pnl b)%Q.
Proof.
  intros Hlen b w Hb Hw.
  unfold best_trades, nlargest in Hb. unfold worst_trades, nsmallest in Hw.
  apply in_map_iff in Hb. destruct Hb as (x & <- & Hx).
  apply in_map_iff in Hw. destruct Hw as (y & <- & Hy).
  simpl.
  destruct (Qlt_le_dec (pnl x) (pnl y)) as [Hlt|Hle]; [exfalso|exact Hle].
  set (s := stable_sort pnl_desc df) in *.
  set (a := stable_sort pnl_asc df) in *.
  set (p := fun r : Trade => Qlt_bool (pnl x) (pnl r)).
  assert (Hs : StronglySorted (fun u v => pnl_desc v u = false)
                 (firstn 10 s ++ skipn 10 s)).
  { rewrite firstn_skipn.
    apply stable_sort_sorted; [apply pnl_desc_asym|apply pnl_desc_negtrans]. }
  assert (Ha : StronglySorted (fun u v => pnl_asc v u = false)
                 (firstn 10 a ++ skipn 10 a)).
  { rewrite firstn_skipn.
    apply stable_sort_sorted; [apply pnl_asc_asym|apply pnl_asc_negtrans]. }
  apply StronglySorted_app in Hs. destruct Hs as (_ & _ & Hs).
  apply StronglySorted_app in Ha. destruct Ha as (_ & _ & Ha).
  assert (Cs : (length (filter p s) < 10)%nat).
  { rewrite <- (firstn_skipn 10 s), filter_app, length_app.
    rewrite (filter_none p (skipn 10 s)).
    - assert (Hpx : p x = false).
      { unfold p. apply Qlt_bool_false_iff, Qle_refl. }
      pose proof (filter_length_lt p x _ Hx Hpx) as H1.
      pose proof (firstn_le_length 10 s) as H2.
      change (length (@nil Trade)) with 0%nat. lia.
    - intros z Hz. apply (Hs x z Hx Hz). }
  assert (Ca : (10 <= length (filter p a))%nat).
  { rewrite <- (firstn_skipn 10 a), filter_app, length_app.
    rewrite (filter_all p (skipn 10 a)).
    - rewrite length_skipn. unfold a. rewrite stable_sort_length. lia.
    - intros z Hz. specialize (Ha y z Hy Hz).
      unfold pnl_asc in Ha. apply Qlt_bool_false_iff in Ha.
      unfold p. apply Qlt_bool_iff. lra. }
  assert (E : length (filter p s) = length (filter p a)).
  { apply filter_length_perm.
    eapply perm_trans; [apply stable_sort_perm|].
    apply Permutation_sym, stable_sort_perm. }
  lia.
Qed.

Lemma ranking_complement_bound_witness :
  (20 <= length ledger20)%nat /\
  (rk_pnl (nth 9 (worst_trades ledger20) (ranked_cols qqq_trade))
   <= rk_pnl (nth 9 (best_trades ledger20) (ranked_cols qqq_trade)))%Q.
Proof.
  split; [vm_compute; lia|].
  apply (ranking_complement_bound ledger20).
  - vm_compute. lia.
  - apply nth_In. vm_compute. lia.
  - apply nth_In. vm_compute. lia.
Defined.

(** ** Calendar *)

(** The date of a day number is a valid calendar date and determines the
    day number. *)
Lemma civil_from_days_valid (d : Date) :
  let '(y, m, dd) := civil_from_days d in
  1 <= m <= 12 /\ 1 <= dd <= days_in_month y m /\ days_from_civil y m dd = d.
Proof.
  unfold civil_from_days. cbv zeta.
  set (z := d + 719468).
  set (era := z / 146097).
  set (doe := z - era * 146097).
  set (yoe := (doe - doe / 1460 + doe / 36524 - doe / 146096) / 365).
  set (doy := doe - (365 * yoe + yoe / 4 - yoe / 100)).
  set (mp := (5 * doy + 2) / 153).
  assert (Hdoe : 0 <= doe <= 146096).
  { unfold doe, era. Z.div_mod_to_equations. lia. }
  assert (Hy : 0 <= yoe <= 399 /\ 0 <= doy <= 365).
  { unfold doy, yoe. clearbody doe. Z.div_mod_to_equations. lia. }
  assert (Hmp : 0 <= mp <= 11).
  { unfold mp. clearbody doy. Z.div_mod_to_equations. lia. }
  assert (Hleap : is_leap (yoe + era * 400 + 1) = false -> doy <> 365).
  { intros El H365. unfold is_leap in El.
    assert (E : (yoe + 1) mod 4 = 0 /\ ((yoe + 1) mod 100 <> 0 \/ yoe = 399)).
    { unfold doy, yoe in *. clearbody doe. Z.div_mod_to_equations. lia. }
    destruct E as [E4 E100].
    replace ((yoe + era * 400 + 1) mod 4) with ((yoe + 1) mod 4) in El
      by (Z.div_mod_to_equations; lia).
    rewrite E4 in El. simpl in El.
    apply orb_false_iff in El. destruct El as [El1 El2].
    apply negb_false_iff, Z.eqb_eq in El1. apply Z.eqb_neq in El2.
    destruct E100 as [E100|E399].
    - apply E100. revert El1. Z.div_mod_to_equations. lia.
    - apply El2. rewrite E399. Z.div_mod_to_equations. lia. }
  assert (Hmpd : 153 * mp <= 5 * doy + 2 < 153 * mp + 153).
  { unfold mp. clearbody doy. Z.div_mod_to_equations. lia. }
  assert (Hz : d = era * 146097 + doe - 719468) by (unfold doe, z; lia).
  assert (Hdoy : doe = yoe * 365 + yoe / 4 - yoe / 100 + doy)
    by (unfold doy; lia).
  destruct Hy as [Hyoe Hdoyb].
  clearbody mp doy yoe doe era. clear z.
  unfold days_from_civil, days_in_month.
  repeat match goal with
         | |- context [if ?b then _ else _] => destruct b eqn:?
         end;
    rewrite ?orb_true_iff, ?orb_false_iff, ?Z.eqb_eq, ?Z.eqb_neq,
      ?Z.ltb_lt, ?Z.ltb_ge, ?Z.leb_le, ?Z.leb_gt in *;
    try match goal with
        | H : is_leap _ = false |- _ => apply Hleap in H
        end;
    try (exfalso; lia);
    (split; [lia|]); (split; [Z.div_mod_to_equations; lia|]);
    Z.div_mod_to_equations; lia.
Qed.

Lemma civil_from_days_year (d : Date) :
  DAY_MIN <= d <= DAY_MAX ->
  let '(y, _, _) := civil_from_days d in 1000 <= y <= 9999.
Proof.
  unfold DAY_MIN, DAY_MAX, civil_from_days. intro H. cbv zeta.
  set (z := d + 719468).
  set (era := z / 146097).
  set (doe := z - era * 146097).
  set (yoe := (doe - doe / 1460 + doe / 36524 - doe / 146096) / 365).
  assert (He : 4 <= era <= 5) by (unfold era, z; Z.div_mod_to_equations; lia).
  assert (Hdoe : 0 <= doe <= 146096).
  { unfold doe, era. Z.div_mod_to_equations. lia. }
  assert (Hy : 0 <= yoe <= 399).
  { unfold yoe. clearbody doe. Z.div_mod_to_equations. lia. }
  destruct (_ <=? 2); lia.
Qed.

Lemma digit_val_digit (k : Z) : 0 <= k <= 9 -> digit_val (digit k) = Some k.
Proof.
  intro H.
  assert (C : k = 0 \/ k = 1 \/ k = 2 \/ k = 3 \/ k = 4 \/ k = 5 \/ k = 6 \/
              k = 7 \/ k = 8 \/ k = 9) by lia.
  repeat (destruct C as [->|C]; [reflexivity|]). subst k. reflexivity.
Qed.

Lemma num2_digits (n : Z) :
  0 <= n <= 99 -> num2 (digit (n / 10)) (digit (n mod 10)) = Some n.
Proof.
  intro H. unfold num2.
  rewrite !digit_val_digit by (Z.div_mod_to_equations; lia).
  f_equal. Z.div_mod_to_equations. lia.
Qed.

Lemma num4_digits (n : Z) :
  0 <= n <= 9999 ->
  num4 (digit (n / 1000)) (digit (n / 100 mod 10))
       (digit (n mod 100 / 10)) (digit (n mod 100 mod 10)) = Some n.
Proof.
  intro H. unfold num4, num2.
  rewrite !digit_val_digit by (Z.div_mod_to_equations; lia).
  f_equal. Z.div_mod_to_equations. lia.
Qed.

(** Reading back the text written for a day gives the midnight of that
    day, for every day whose midnight is representable. *)
Lemma to_datetime_format_ymd (d : Date) :
  DAY_MIN <= d <= DAY_MAX -> to_datetime (format_ymd d) = Some (d * NS_PER_DAY).
Proof.
  intro H. unfold format_ymd.
  pose proof (civil_from_days_valid d) as Hv.
  pose proof (civil_from_days_year d H) as Hy.
  destruct (civil_from_days d) as [[y m] dd].
  destruct Hv as (Hm & Hd & Hinv).
  assert (Hdd : dd <= 31).
  { destruct Hd as [_ Hd]. revert Hd. unfold days_in_month.
    repeat match goal with
           | |- context [if ?b then _ else _] => destruct b
           end; lia. }
  unfold pad4, pad2. cbn [append to_datetime].
  replace (("-" =? "-")%char) with true by reflexivity. cbn [andb].
  rewrite num4_digits, !num2_digits by lia.
  replace ((1 <=? m) && (m <=? 12) && (1 <=? dd) && (dd <=? days_in_month y m))
    with true.
  - rewrite Hinv.
    replace (in_bounds (d * NS_PER_DAY)) with true; [reflexivity|].
    symmetry. unfold in_bounds, TS_MIN, TS_MAX, NS_PER_DAY, DAY_MIN, DAY_MAX in *.
    apply andb_true_iff. rewrite !Z.leb_le. lia.
  - symmetry. rewrite !andb_true_iff, !Z.leb_le. lia.
Qed.

Lemma dt_date_midnight (d : Date) : dt_date (d * NS_PER_DAY) = d.
Proof. unfold dt_date. apply Z.div_mul. discriminate. Qed.

(** ** Export and reload *)

Lemma load_display_row (r : Trade) :
  day_in_range (dt_date (openDate r)) ->
  day_in_range (dt_date (closeDate r)) ->
  load_row (display_row r) = Some (reloaded r).
Proof.
  intros Ho Hc. unfold load_row, display_row, strftime_ymd.
  cbn [csv_openDate csv_closeDate csv_type csv_symbol csv_status
       csv_quantity csv_pnl csv_returnPct csv_daysInTrade
       csv_estimated_delta csv_delta_category].
  rewrite (to_datetime_format_ymd _ Ho), (to_datetime_format_ymd _ Hc).
  reflexivity.
Qed.

Lemma filter_map_commute {A B} (f : A -> B) (p : B -> bool) (l : list A) :
  filter p (map f l) = map f (filter (fun x => p (f x)) l).
Proof.
  induction l as [|x l IH]; simpl; [reflexivity|].
  destruct (p (f x)); simpl; rewrite IH; reflexivity.
Qed.

Lemma load_data_perm (rows : list CsvRow) :
  forall df : DataFrame,
    Permutation rows (map display_row df) ->
    (forall r, In r df -> load_row (display_row r) = Some (reloaded r)) ->
    exists df', load_data rows = Some df' /\ Permutation df' (map reloaded df).
Proof.
  induction rows as [|c rows IH]; intros df Hp Hl.
  - apply Permutation_nil in Hp. destruct df; [|discriminate].
    exists []. split; [reflexivity|constructor].
  - assert (Hin : In c (map display_row df)).
    { eapply Permutation_in; [exact Hp|]. left. reflexivity. }
    apply in_map_iff in Hin. destruct Hin as (r & <- & Hr).
    apply in_split in Hr. destruct Hr as (l1 & l2 & ->).
    rewrite map_app in Hp. simpl in Hp.
    apply Permutation_cons_app_inv in Hp. rewrite <- map_app in Hp.
    destruct (IH (l1 ++ l2) Hp) as (df' & Hload & Hperm).
    { intros x Hx. apply Hl. apply in_app_or in Hx.
      apply in_or_app. destruct Hx; [left|right; right]; assumption. }
    exists (reloaded r :: df'). split.
    + simpl. rewrite Hl, Hload; [reflexivity|].
      apply in_or_app. right. left. reflexivity.
    + rewrite map_app in *. simpl. apply Permutation_cons_app. exact Hperm.
Qed.

Lemma sort_values_perm (c : Column) (asc : bool) (t : list CsvRow) :
  Permutation (sort_values c asc t) t.
Proof. unfold sort_values. destruct asc; apply stable_sort_perm. Qed.





(** ** Grouped tables *)

Lemma string_compare_lt_trans (a b c : string) :
  String.compare a b = Lt -> String.compare b c = Lt -> String.compare a c = Lt.
Proof.
  revert b c. induction a as [|x a IH]; intros [|y b] [|z c]; simpl;
    try discriminate; try reflexivity.
  unfold Ascii.compare.
  destruct (N.compare_spec (N_of_ascii x) (N_of_ascii y)) as [Exy|Lxy|Gxy];
    try discriminate;
    destruct (N.compare_spec (N_of_ascii y) (N_of_ascii z)) as [Eyz|Lyz|Gyz];
    try discriminate; intros H1 H2.
  - rewrite Exy, Eyz, N.compare_refl. eapply IH; eassumption.
  - rewrite Exy. apply N.compare_lt_iff in Lyz. rewrite Lyz. reflexivity.
  - rewrite <- Eyz. apply N.compare_lt_iff in Lxy. rewrite Lxy. reflexivity.
  - assert (L : (N_of_ascii x < N_of_ascii z)%N) by (eapply N.lt_trans; eassumption).
    apply N.compare_lt_iff in L. rewrite L. reflexivity.
Qed.

Lemma string_ltb_trans (a b c : string) :
  String.ltb a b = true -> String.ltb b c = true -> String.ltb a c = true.
Proof.
  unfold String.ltb. intros H1 H2.
  destruct (String.compare a b) eqn:E1; try discriminate.
  destruct (String.compare b c) eqn:E2; try discriminate.
  rewrite (string_compare_lt_trans a b c E1 E2). reflexivity.
Qed.

Lemma string_ltb_total (a b : string) :
  String.eqb a b = false -> String.ltb a b = false -> String.ltb b a = true.
Proof.
  unfold String.ltb. intros Hne Hlt. rewrite String.compare_antisym.
  destruct (String.compare a b) eqn:E; simpl.
  - apply String.compare_eq_iff in E. apply String.eqb_neq in Hne. contradiction.
  - discriminate Hlt.
  - reflexivity.
Qed.


Lemma pair_ltb_trans (a b c : string * string) :
  pair_ltb a b = true -> pair_ltb b c = true -> pair_ltb a c = true.
Proof.
  unfold pair_ltb. destruct a as [a1 a2], b as [b1 b2], c as [c1 c2]. simpl.
  rewrite !orb_true_iff, !andb_true_iff, !String.eqb_eq.
  intros [H1|[-> H1]] [H2|[-> H2]].
  - left. eapply string_ltb_trans; eassumption.
  - left. exact H1.
  - left. exact H2.
  - right. split; [reflexivity|]. eapply string_ltb_trans; eassumption.
Qed.

Lemma pair_ltb_total (a b : string * string) :
  pair_eqb a b = false -> pair_ltb a b = false -> pair_ltb b a = true.
Proof.
  unfold pair_eqb, pair_ltb. destruct a as [a1 a2], b as [b1 b2]. simpl.
  rewrite !andb_false_iff, !orb_false_iff, !andb_false_iff,
    orb_true_iff, andb_true_iff.
  intros Hne [Hl1 Hl2].
  destruct (String.eqb a1 b1) eqn:E1.
  - right. apply String.eqb_eq in E1. subst b1.
    split; [apply String.eqb_refl|].
    apply string_ltb_total.
    + destruct Hne as [Hne|Hne]; [discriminate|exact Hne].
    + destruct Hl2 as [Hl2|Hl2]; [discriminate|exact Hl2].
  - left. apply string_ltb_total; assumption.
Qed.

Section GroupByFacts.
Context {K : Type}.
Variable key_eqb : K -> K -> bool.
Variable key_ltb : K -> K -> bool.
Variable key : Trade -> K.
Hypothesis key_ltb_trans :
  forall a b c, key_ltb a b = true -> key_ltb b c = true -> key_ltb a c = true.
Hypothesis key_ltb_total :
  forall a b, key_eqb a b = false -> key_ltb a b = false -> key_ltb b a = true.

Lemma add_key_In (k x : K) (ks : list K) :
  In x (add_key key_eqb key_ltb k ks) -> x = k \/ In x ks.
Proof.
  induction ks as [|k' ks IH]; simpl.
  - intros [<-|[]]. left. reflexivity.
  - destruct (key_eqb k k'); [tauto|].
    destruct (key_ltb k k'); simpl; [intuition congruence|].
    intros [<-|H]; [tauto|]. destruct (IH H); tauto.
Qed.

Lemma add_key_sorted (k : K) (ks : list K) :
  StronglySorted (fun a b => key_ltb a b = true) ks ->
  StronglySorted (fun a b => key_ltb a b = true) (add_key key_eqb key_ltb k ks).
Proof.
  induction ks as [|k' ks IH]; intro Hs; simpl.
  - constructor; constructor.
  - destruct (key_eqb k k') eqn:Ee; [exact Hs|].
    pose proof (StronglySorted_inv Hs) as [Hs' Hk'].
    rewrite Forall_forall in Hk'.
    destruct (key_ltb k k') eqn:El.
    + constructor; [exact Hs|]. constructor; [exact El|].
      apply Forall_forall. intros x Hx.
      eapply key_ltb_trans; [exact El|]. apply Hk', Hx.
    + constructor; [apply IH, Hs'|].
      apply Forall_forall. intros x Hx.
      apply add_key_In in Hx. destruct Hx as [->|Hx].
      * apply key_ltb_total; assumption.
      * apply Hk', Hx.
Qed.

Lemma group_keys_sorted (df : DataFrame) :
  StronglySorted (fun a b => key_ltb a b = true)
    (group_keys key_eqb key_ltb key df).
Proof.
  induction df as [|r df IH]; simpl; [constructor|].
  apply add_key_sorted, IH.
Qed.

Lemma groupby_table_ascending {R} (f : DataFrame -> R) (df : DataFrame) :
  key_ascending key_ltb
    (map (fun kg => (fst kg, f (snd kg))) (groupby key_eqb key_ltb key df)).
Proof.
  unfold key_ascending, groupby. rewrite map_map. simpl.
  pose proof (group_keys_sorted df) as Hs.
  induction Hs as [|k ks Hs IH Hk]; simpl; constructor; [exact IH|].
  apply Forall_forall. intros x Hx.
  apply in_map_iff in Hx. destruct Hx as (k' & <- & Hk').
  rewrite Forall_forall in Hk. simpl. apply Hk, Hk'.
Qed.
End GroupByFacts.

Lemma sort_desc_descending {K R} (col : R -> Q) (t : list (K * R)) :
  descending col (sort_desc col t).
Proof.
  unfold descending, sort_desc.
  eapply StronglySorted_weaken;
    [|apply (stable_sort_sorted
               (fun x y : K * R => Qlt_bool (col (snd y)) (col (snd x))))].
  - intros x y H. simpl in H. apply Qlt_bool_false_iff in H. exact H.
  - intros x y. rewrite Qlt_bool_iff, Qlt_bool_false_iff. lra.
  - intros x y z. rewrite !Qlt_bool_false_iff. lra.
Qed.

(** C5, as stated, fails on the status table: on a ledger whose early
    closes lose 10 while the expiries make 20 the groups come as closed,
    expired, the smaller total first. *)
Lemma status_order_counterexample :
  map (fun g => (fst g, Status.Total_PnL (snd g))) (status_stats closed_loses)
  = [("closed"%string, round_dec 2 (-10)); ("expired"%string, round_dec 2 20)] /\
  ~ descending Status.Total_PnL (status_stats closed_loses).
Proof.
  split; [reflexivity|].
  unfold descending. intro H.
  apply StronglySorted_inv in H. destruct H as [_ H].
  apply Forall_inv in H. vm_compute in H. apply H. reflexivity.
Qed.

(** C5 (amended).  The tables by strategy and by symbol, and the delta
    table by strategy, are presented in descending order of total pnl; the
    tables by status, by delta category and by strategy and status are
    presented in ascending order of their key. *)
Theorem grouped_tables_order (df : DataFrame) :
  descending Strategy.Total_PnL (strategy_stats df) /\
  descending Pnl.Total_PnL (symbol_stats df) /\
  descending Delta.Total_PnL (delta_strategy df) /\
  key_ascending String.ltb (status_stats df) /\
  key_ascending String.ltb (delta_perf df) /\
  key_ascending pair_ltb (status_strategy df).
Proof.
  split; [apply sort_desc_descending|].
  split; [apply sort_desc_descending|].
  split; [apply sort_desc_descending|].
  split; [|split].
  - unfold status_stats, groupby_str.
    apply (groupby_table_ascending String.eqb String.ltb status
             string_ltb_trans string_ltb_total
             (fun g => Status.mk (agg_total g) (agg_avg g) (agg_median g)
                         (length g) (agg_win_rate g)
                         (agg_mean daysInTrade g))).
  - unfold delta_perf, groupby_str.
    apply (groupby_table_ascending String.eqb String.ltb delta_category
             string_ltb_trans string_ltb_total pnl_row).
  - unfold status_strategy, groupby_pair.
    apply (groupby_table_ascending pair_eqb pair_ltb
             (fun r => (type r, status r))
             pair_ltb_trans pair_ltb_total pnl_row).
Qed.

(** ** Sidebar option lists and defaults *)

Lemma unique_In (x : string) (l : list string) : In x (unique l) <-> In x l.
Proof.
  induction l as [|y l IH]; simpl; [tauto|].
  rewrite filter_In, negb_true_iff, String.eqb_neq, IH.
  destruct (string_dec y x) as [->|Hne]; [tauto|].
  split; [tauto|]. intros [H|H]; [tauto|]. right. split; [exact H|congruence].
Qed.

Lemma unique_NoDup (l : list string) : NoDup (unique l).
Proof.
  induction l as [|y l IH]; simpl; constructor.
  - rewrite filter_In, negb_true_iff, String.eqb_neq. tauto.
  - apply NoDup_filter. exact IH.
Qed.

Lemma string_ltb_irrefl (a : string) : String.ltb a a = false.
Proof.
  unfold String.ltb.
  destruct (String.compare a a) eqn:E; try reflexivity.
  pose proof (String.compare_antisym a a) as H. rewrite E in H. discriminate H.
Qed.

Lemma string_ltb_asym (a b : string) :
  String.ltb a b = true -> String.ltb b a = false.
Proof.
  intro H. destruct (String.ltb b a) eqn:E; [|reflexivity].
  pose proof (string_ltb_trans a b a H E) as C.
  rewrite string_ltb_irrefl in C. discriminate C.
Qed.

Lemma string_ltb_false (a b : string) :
  String.ltb a b = false -> a = b \/ String.ltb b a = true.
Proof.
  intro H. destruct (String.eqb a b) eqn:E.
  - left. apply String.eqb_eq, E.
  - right. apply string_ltb_total; assumption.
Qed.

Lemma string_ltb_negtrans (x y z : string) :
  String.ltb y x = false -> String.ltb z y = false -> String.ltb z x = false.
Proof.
  intros H1 H2. destruct (String.ltb z x) eqn:E; [exfalso|reflexivity].
  apply string_ltb_false in H1, H2.
  assert (C : x = z \/ String.ltb x z = true).
  { destruct H1 as [H1|H1], H2 as [H2|H2].
    - left. congruence.
    - right. rewrite <- H1. exact H2.
    - right. rewrite H2. exact H1.
    - right. eapply string_ltb_trans; eassumption. }
  destruct C as [C|C].
  - rewrite C, string_ltb_irrefl in E. discriminate E.
  - rewrite (string_ltb_asym _ _ C) in E. discriminate E.
Qed.

Lemma sorted_perm (l : list string) : Permutation (sorted l) l.
Proof. apply stable_sort_perm. Qed.

Lemma sorted_ascending (l : list string) :
  NoDup l -> StronglySorted (fun a b => String.ltb a b = true) (sorted l).
Proof.
  intro Hnd.
  assert (Hnd' : NoDup (sorted l)).
  { eapply Permutation_NoDup; [apply Permutation_sym, sorted_perm|exact Hnd]. }
  pose proof (stable_sort_sorted String.ltb string_ltb_asym string_ltb_negtrans l)
    as Hs.
  fold (sorted l) in Hs.
  induction Hs as [|a t Hs IH Ha]; constructor.
  - apply IH. inversion Hnd'. assumption.
  - rewrite Forall_forall in *. intros b Hb.
    destruct (string_ltb_false _ _ (Ha b Hb)) as [->|H]; [|exact H].
    inversion Hnd'. contradiction.
Qed.

Lemma sorted_unique_In (x : string) (l : list string) :
  In x (sorted (unique l)) <-> In x l.
Proof.
  split; intro H.
  - apply unique_In. eapply Permutation_in; [apply sorted_perm|exact H].
  - eapply Permutation_in; [apply Permutation_sym, sorted_perm|].
    apply unique_In, H.
Qed.

Lemma label_eqb_eq (x y : label) : label_eqb x y = true <-> x = y.
Proof.
  destruct x as [a|], y as [b|]; simpl.
  - rewrite String.eqb_eq. split; [intros ->; reflexivity|].
    intro H. injection H as ->. reflexivity.
  - split; discriminate.
  - split; discriminate.
  - tauto.
Qed.

Lemma unique_labels_In (x : label) (l : list label) :
  In x (unique_labels l) <-> In x l.
Proof.
  induction l as [|y l IH]; simpl; [tauto|].
  rewrite filter_In, negb_true_iff, IH.
  destruct (label_eqb x y) eqn:E.
  - apply label_eqb_eq in E. subst y. split; [tauto|]. intros _. left. reflexivity.
  - split; [tauto|]. intros [H|H]; [|tauto].
    subst y. assert (T : label_eqb x x = true) by (apply label_eqb_eq; reflexivity).
    congruence.
Qed.

Lemma unique_labels_text (l : list string) :
  unique_labels (map Text l) = map Text (unique l).
Proof.
  induction l as [|x l IH]; simpl; [reflexivity|].
  rewrite IH, filter_map_commute. reflexivity.
Qed.

Lemma insert_sorted_text (x : string) (l : list string) :
  insert_sorted label_ltb (Text x) (map Text l)
  = map Text (insert_sorted String.ltb x l).
Proof.
  induction l as [|y l IH]; simpl; [reflexivity|].
  destruct (String.ltb y x); simpl; [rewrite IH|]; reflexivity.
Qed.

Lemma py_sorted_text (l : list string) :
  py_sorted (map Text l) = Some (map Text (sorted l)).
Proof.
  unfold py_sorted.
  assert (E : existsb (fun x => negb (is_text x)) (map Text l) = false).
  { induction l as [|x l IH]; simpl; [reflexivity|exact IH]. }
  rewrite E, andb_false_r. f_equal. clear E.
  unfold sorted, stable_sort.
  induction l as [|x l IH]; simpl; [reflexivity|].
  rewrite IH. apply insert_sorted_text.
Qed.

Lemma read_labels_present (col : Trade -> string) (df : DataFrame) :
  labels_present col df ->
  map (fun r => read_label (col r)) df = map Text (map col df).
Proof.
  intro H. rewrite map_map. apply map_ext_in. intros r Hr.
  unfold read_label. rewrite (H r Hr). reflexivity.
Qed.

Lemma read_label_text (s t : string) :
  read_label s = Text t <-> s = t /\ isna s = false.
Proof.
  unfold read_label. destruct (isna s); split.
  - discriminate.
  - intros [_ H]. discriminate H.
  - intro H. injection H as ->. tauto.
  - intros [-> _]. reflexivity.
Qed.

(** An entry of a select box that is a text is the label of a trade. *)
Lemma options_of_text (col : Trade -> string) (df : DataFrame)
  (opts : list label) (s : string) :
  options_of col df = Some opts -> In (Text s) opts ->
  s = ALL \/ exists r, In r df /\ col r = s /\ isna s = false.
Proof.
  unfold options_of, py_sorted.
  destruct (existsb is_text _ && existsb _ _); [discriminate|].
  intro H. injection H as <-. intros [H|H].
  - left. injection H as ->. reflexivity.
  - right.
    apply (Permutation_in _ (stable_sort_perm label_ltb _)) in H.
    apply unique_labels_In, in_map_iff in H.
    destruct H as (r & Hr & Hin). apply read_label_text in Hr.
    exists r. destruct Hr as [-> Hna]. tauto.
Qed.

(** X1.  On a column without a missing label a select box offers ["All"]
    first and then the labels of the column that occur in the store, each
    once, in ascending order, and nothing else.  On a column that holds a
    missing label next to a text the script stops on the [TypeError] of
    [sorted]; on a column of missing labels only the box offers ["All"]
    and NaN. *)
Theorem sidebar_options (df : DataFrame) (col : Trade -> string) :
  (labels_present col df ->
   exists opts,
     options_of col df = Some (Text ALL :: map Text opts) /\
     StronglySorted (fun a b => String.ltb a b = true) opts /\
     NoDup opts /\
     (forall s, In s opts <-> exists r, In r df /\ col r = s)) /\
  ((exists r, In r df /\ isna (col r) = true) ->
   (exists r, In r df /\ isna (col r) = false) ->
   options_of col df = None) /\
  (df <> [] -> (forall r, In r df -> isna (col r) = true) ->
   options_of col df = Some [Text ALL; Missing]) /\
  strategies df = options_of type df /\
  statuses df = options_of status df /\
  symbols df = options_of symbol df.
Proof.
  split; [|split; [|split; [|repeat split]]].
  - intro Hp. exists (sorted (unique (map col df))).
    unfold options_of.
    rewrite (read_labels_present col df Hp), unique_labels_text, py_sorted_text.
    split; [reflexivity|].
    split; [apply sorted_ascending, unique_NoDup|]. split.
    + eapply Permutation_NoDup; [apply Permutation_sym, sorted_perm|].
      apply unique_NoDup.
    + intro s. rewrite sorted_unique_In, in_map_iff.
      split; intros (r & H1 & H2); exists r; tauto.
  - intros (r1 & Hr1 & Hna1) (r2 & Hr2 & Hna2).
    unfold options_of, py_sorted.
    assert (E1 : existsb is_text
                   (unique_labels (map (fun r => read_label (col r)) df)) = true).
    { apply existsb_exists. exists (Text (col r2)). split; [|reflexivity].
      apply unique_labels_In, in_map_iff. exists r2.
      split; [|exact Hr2]. unfold read_label. rewrite Hna2. reflexivity. }
    assert (E2 : existsb (fun x => negb (is_text x))
                   (unique_labels (map (fun r => read_label (col r)) df)) = true).
    { apply existsb_exists. exists Missing. split; [|reflexivity].
      apply unique_labels_In, in_map_iff. exists r1.
      split; [|exact Hr1]. unfold read_label. rewrite Hna1. reflexivity. }
    rewrite E1, E2. reflexivity.
  - intros Hne Hall. unfold options_of.
    assert (E : unique_labels (map (fun r => read_label (col r)) df) = [Missing]).
    { rewrite (map_ext_in _ (fun _ => Missing))
        by (intros r Hr; unfold read_label; rewrite (Hall r Hr); reflexivity).
      destruct df as [|r0 df]; [contradiction|]. simpl.
      f_equal. apply filter_none. intros x Hx.
      apply unique_labels_In, in_map_iff in Hx. destruct Hx as (r & <- & Hr).
      reflexivity. }
    rewrite E. reflexivity.
Qed.

Lemma sidebar_options_witness :
  (exists opts,
     options_of symbol sample_store = Some (Text ALL :: map Text opts) /\
     NoDup opts) /\
  options_of symbol symbol_missing = None.
Proof.
  split.
  - assert (Hp : labels_present symbol sample_store).
    { intros r Hr. simpl in Hr.
      repeat (destruct Hr as [<-|Hr]; [reflexivity|]). destruct Hr. }
    destruct (proj1 (sidebar_options sample_store symbol) Hp)
      as (opts & H1 & _ & H2 & _).
    exists opts. split; assumption.
  - destruct (sidebar_options symbol_missing symbol) as (_ & H & _).
    apply H.
    + eexists. split; [right; left; reflexivity|reflexivity].
    + eexists. split; [left; reflexivity|reflexivity].
Defined.

Lemma fold_min_le (l : list Z) (x : Z) :
  fold_left Z.min l x <= x /\ (forall y, In y l -> fold_left Z.min l x <= y).
Proof.
  revert x. induction l as [|a l IH]; intro x; simpl.
  - split; [lia|]. intros y [].
  - destruct (IH (Z.min x a)) as [H1 H2]. split; [lia|].
    intros y [<-|Hy]; [lia|apply H2, Hy].
Qed.

Lemma fold_max_ge (l : list Z) (x : Z) :
  x <= fold_left Z.max l x /\ (forall y, In y l -> y <= fold_left Z.max l x).
Proof.
  revert x. induction l as [|a l IH]; intro x; simpl.
  - split; [lia|]. intros y [].
  - destruct (IH (Z.max x a)) as [H1 H2]. split; [lia|].
    intros y [<-|Hy]; [lia|apply H2, Hy].
Qed.

Lemma fold_min_In (l : list Z) (x : Z) : In (fold_left Z.min l x) (x :: l).
Proof.
  revert x. induction l as [|a l IH]; intro x; simpl; [left; reflexivity|].
  destruct (IH (Z.min x a)) as [H|H]; [|right; right; exact H].
  destruct (Z.min_spec x a) as [[_ M]|[_ M]]; [left|right; left];
    rewrite <- H; symmetry; exact M.
Qed.

Lemma dt_date_mono (a b : Timestamp) : a <= b -> dt_date a <= dt_date b.
Proof. intro H. unfold dt_date. apply Z.div_le_mono; [reflexivity|exact H]. Qed.

Lemma notnat_iff (t : Timestamp) : notnat t = true <-> t <> NaT.
Proof. unfold notnat. rewrite negb_true_iff. apply Z.eqb_neq. Qed.

(** The default range covers every open date that is present. *)
Lemma default_filters_some (df : DataFrame) (w : Filters) :
  default_filters df = Some w ->
  selected_strategy w = ALL /\ selected_status w = ALL /\
  selected_symbol w = ALL /\
  exists a b, date_range w = [a; b] /\
              forall r, In r df -> openDate r <> NaT ->
                        a <= dt_date (openDate r) <= b.
Proof.
  unfold default_filters, timestamp_min, timestamp_max.
  destruct (filter notnat (map openDate df)) as [|t0 ts] eqn:E; [discriminate|].
  intro H. injection H as <-. simpl.
  repeat split; try reflexivity.
  eexists. eexists. split; [reflexivity|].
  destruct (fold_min_le ts t0) as [Hm1 Hm2].
  destruct (fold_max_ge ts t0) as [HM1 HM2].
  intros r Hr Hp.
  assert (Hin : In (openDate r) (t0 :: ts)).
  { rewrite <- E. apply filter_In. split; [apply in_map, Hr|].
    apply notnat_iff, Hp. }
  destruct Hin as [<-|Hin]; split; apply dt_date_mono; try assumption.
  - apply Hm2, Hin.
  - apply HM2, Hin.
Qed.

Lemma dropped_by_range (a b : Date) (r : Trade) :
  DAY_MIN <= a -> openDate r = NaT ->
  (a <=? dt_date (openDate r)) && (dt_date (openDate r) <=? b) = false.
Proof.
  intros Ha ->. change (dt_date NaT) with (-106752).
  unfold DAY_MIN in Ha. apply andb_false_iff. left. apply Z.leb_gt. lia.
Qed.



Lemma offered_option_kept (df : DataFrame) (w : Filters) (col : Trade -> string)
  (opts : list label) (s : string) (w' : Filters) :
  dates_present df ->
  default_filters df = Some w ->
  options_of col df = Some opts -> In (Text s) opts -> s <> ALL ->
  date_range w' = date_range w ->
  (forall r, satisfiesb (criteria_of w') r
             = (col r =? s)%string &&
               holds_rangeb (range_constraint (date_range w')) (openDate r)) ->
  filtered_df df w' <> [] /\ forall r, In r (filtered_df df w') -> col r = s.
Proof.
  intros Hp Hd Ho Hin Hne Hdr Hsat.
  destruct (default_filters_some df w Hd) as (_ & _ & _ & a & b & Hab & Hcov).
  rewrite filtered_df_filter.
  destruct (options_of_text col df opts s Ho Hin) as [Heq|(r & Hrin & Hr & _)];
    [contradiction|].
  split.
  - intro Hnil.
    assert (Hf : In r (filter (satisfiesb (criteria_of w')) df)).
    { apply filter_In. split; [exact Hrin|].
      rewrite Hsat, Hdr, Hab, Hr, String.eqb_refl. simpl.
      apply andb_true_iff. rewrite !Z.leb_le.
      apply Hcov; [exact Hrin|apply Hp, Hrin]. }
    rewrite Hnil in Hf. destruct Hf.
  - intros x Hx. apply filter_In in Hx. destruct Hx as [_ Hx].
    rewrite Hsat in Hx. apply andb_true_iff in Hx.
    apply String.eqb_eq, Hx.
Qed.

(** X3.  On a store without a missing open date, every text a select box
    offers other than ["All"] matches at least one trade: choosing it,
    with the other widgets left at their defaults, gives a subset that is
    not empty and holds only trades with that label. *)
Theorem offered_option_matches (df : DataFrame) (w : Filters)
  (opts : list label) (s : string) :
  dates_present df -> default_filters df = Some w -> s <> ALL ->
  In (Text s) opts ->
  (strategies df = Some opts ->
   let w' := {| selected_strategy := s; selected_status := ALL;
                selected_symbol := ALL; date_range := date_range w |} in
   filtered_df df w' <> [] /\ forall r, In r (filtered_df df w') -> type r = s) /\
  (statuses df = Some opts ->
   let w' := {| selected_strategy := ALL; selected_status := s;
                selected_symbol := ALL; date_range := date_range w |} in
   filtered_df df w' <> [] /\ forall r, In r (filtered_df df w') -> status r = s) /\
  (symbols df = Some opts ->
   let w' := {| selected_strategy := ALL; selected_status := ALL;
                selected_symbol := s; date_range := date_range w |} in
   filtered_df df w' <> [] /\ forall r, In r (filtered_df df w') -> symbol r = s).
Proof.
  intros Hp Hd Hne Hin.
  assert (Es : eq_constraint s = Some s).
  { unfold eq_constraint. destruct (s =? ALL)%string eqn:E; [|reflexivity].
    apply String.eqb_eq in E. contradiction. }
  split; [|split]; intros Ho w';
    apply (offered_option_kept df w _ opts s w' Hp Hd Ho Hin Hne eq_refl);
    intro r; unfold satisfiesb, criteria_of, w'; simpl; rewrite Es; simpl;
    rewrite ?andb_true_r; reflexivity.
Qed.

Lemma offered_option_matches_witness :
  exists w, default_filters sample_store = Some w /\
    filtered_df sample_store
      {| selected_strategy := ALL; selected_status := "expired";
         selected_symbol := ALL; date_range := date_range w |} <> [].
Proof.
  eexists. split; [reflexivity|].
  assert (Hp : dates_present sample_store).
  { intros r Hr. simpl in Hr.
    repeat (destruct Hr as [<-|Hr]; [discriminate|]). destruct Hr. }
  destruct (statuses sample_store) as [opts|] eqn:E;
    [|vm_compute in E; discriminate E].
  destruct (offered_option_matches sample_store _ opts "expired" Hp eq_refl)
    as (_ & H & _).
  - discriminate.
  - vm_compute in E. injection E as <-. simpl. tauto.
  - apply H. exact E.
Defined.

(** ** Overview tab *)

Lemma len_Q_nonneg {A} (l : list A) : (0 <= len_Q l)%Q.
Proof.
  unfold len_Q. change 0%Q with (inject_Z 0). rewrite <- Zle_Qle. lia.
Qed.

Lemma len_Q_pos {A} (l : list A) : (0 < length l)%nat -> (0 < len_Q l)%Q.
Proof.
  intro H. unfold len_Q. change 0%Q with (inject_Z 0). rewrite <- Zlt_Qlt. lia.
Qed.

Lemma len_Q_le {A B} (l : list A) (l' : list B) :
  (length l <= length l')%nat -> (len_Q l <= len_Q l')%Q.
Proof. intro H. unfold len_Q. rewrite <- Zle_Qle. lia. Qed.

Lemma wins_length_le (df : DataFrame) : (length (wins df) <= length df)%nat.
Proof. apply filter_length_le. Qed.

Lemma win_ratio_bounds (df : DataFrame) :
  (0 < length df)%nat ->
  (0 <= len_Q (wins df) / len_Q df /\ len_Q (wins df) / len_Q df <= 1)%Q.
Proof.
  intro Hpos. pose proof (len_Q_pos df Hpos) as Hn.
  pose proof (len_Q_nonneg (wins df)) as Hw.
  pose proof (len_Q_le _ _ (wins_length_le df)) as Hle.
  split.
  - apply Qle_shift_div_l; [exact Hn|]. lra.
  - apply Qle_shift_div_r; [exact Hn|]. lra.
Qed.

(** X4.  The win rate is always a number between 0 and 100; it is 0 on
    the empty subset. *)
Theorem win_rate_bounds (df : DataFrame) :
  exists q, win_rate df = Finite q /\ (0 <= q <= 100)%Q /\
            (df = [] -> q = 0%Q).
Proof.
  unfold win_rate. destruct (0 <? length df)%nat eqn:E.
  - apply Nat.ltb_lt in E. eexists. split; [reflexivity|].
    destruct (win_ratio_bounds df E) as [H0 H1].
    split; [lra|]. intros ->. simpl in E. lia.
  - exists 0%Q. split; [reflexivity|]. split; [lra|reflexivity].
Qed.

Lemma win_rate_bounds_witness :
  exists q, win_rate no_match = Finite q /\ (0 <= q <= 100)%Q /\ q = 0%Q.
Proof.
  destruct (win_rate_bounds no_match) as (q & H1 & H2 & H3).
  exists q. split; [exact H1|]. split; [exact H2|]. apply H3. reflexivity.
Defined.

Lemma ratio_ge_iff (c a b : Q) :
  (0 < b)%Q -> (c <= a / b <-> c * b <= a)%Q.
Proof.
  intro Hb. split; intro H.
  - apply (Qmult_le_r _ _ b Hb) in H.
    assert (E : (a / b * b == a)%Q) by (field; lra).
    rewrite E in H. exact H.
  - apply Qle_shift_div_l; assumption.
Qed.

(** X5.  The two verdicts of the overview.  The profit-factor verdict is
    read off the computed profit factor: Excellent from 2 up, infinity
    included, Good from 1.5 up to 2, Poor below 1.5.  A subset without a
    losing trade, the empty one included, has an infinite profit factor
    and reads Excellent.  The win rate reads Above Target exactly when the
    subset is not empty and at least three trades in four are winners; so
    the empty subset reads Excellent and Below Target. *)
Theorem overview_verdicts (df : DataFrame) :
  (profit_factor_verdict PosInf = "Excellent"%string /\
   forall q,
     (profit_factor_verdict (Finite q) = "Excellent"%string <-> (2 <= q)%Q) /\
     (profit_factor_verdict (Finite q) = "Good"%string
      <-> ((3 # 2) <= q < 2)%Q) /\
     (profit_factor_verdict (Finite q) = "Poor"%string <-> (q < (3 # 2))%Q)) /\
  ((forall r, In r df -> ~ (pnl r < 0)%Q) ->
   profit_factor df = PosInf /\ profit_factor_label df = "Excellent"%string) /\
  (win_rate_label df = "Above Target"%string
   <-> (0 < length df /\ 3 * length df <= 4 * length (wins df))%nat) /\
  (df = [] ->
   profit_factor_label df = "Excellent"%string /\
   win_rate_label df = "Below Target"%string).
Proof.
  split; [|split; [|split]].
  - split; [reflexivity|]. intro q. unfold profit_factor_verdict, float_geb.
    destruct (Qle_bool 2 q) eqn:E2;
      [apply Qle_bool_iff in E2 | apply not_true_iff_false in E2;
                                  rewrite Qle_bool_iff in E2];
      [|destruct (Qle_bool (3 # 2) q) eqn:E3;
        [apply Qle_bool_iff in E3 | apply not_true_iff_false in E3;
                                    rewrite Qle_bool_iff in E3]];
      (repeat split; intros; try discriminate; try reflexivity; try lra).
  - intro Hno.
    assert (E : profit_factor df = PosInf).
    { unfold profit_factor. apply gross_loss_zero_iff in Hno.
      destruct (Qlt_bool 0 (gross_loss df)) eqn:E; [|reflexivity].
      apply Qlt_bool_iff in E. lra. }
    split; [exact E|]. unfold profit_factor_label. rewrite E. reflexivity.
  - unfold win_rate_label, win_rate_verdict, win_rate.
    destruct (0 <? length df)%nat eqn:E; simpl.
    + apply Nat.ltb_lt in E. pose proof (len_Q_pos df E) as Hn.
      assert (Hiff : (75 <= len_Q (wins df) / len_Q df * 100)%Q
                     <-> (3 * length df <= 4 * length (wins df))%nat).
      { assert (E1 : (len_Q (wins df) / len_Q df * 100
                      == (len_Q (wins df) * 100) / len_Q df)%Q) by (field; lra).
        rewrite E1, ratio_ge_iff by exact Hn.
        unfold len_Q. change 75%Q with (inject_Z 75).
        change 100%Q with (inject_Z 100).
        rewrite <- !inject_Z_mult, <- Zle_Qle. lia. }
      destruct (Qle_bool 75 (len_Q (wins df) / len_Q df * 100)) eqn:E2.
      * apply Qle_bool_iff in E2. split; [tauto|reflexivity].
      * apply not_true_iff_false in E2. rewrite Qle_bool_iff in E2.
        split; [discriminate|]. tauto.
    + apply Nat.ltb_ge in E.
      split; [vm_compute; discriminate|]. lia.
  - intros ->. split; reflexivity.
Qed.

Lemma overview_verdicts_witness :
  (profit_factor no_match = PosInf /\
   profit_factor_label no_match = "Excellent"%string) /\
  win_rate_label closed_only = "Above Target"%string /\
  win_rate_label no_match = "Below Target"%string.
Proof.
  split; [|split].
  - destruct (overview_verdicts no_match) as (_ & H & _).
    apply H. intros r [].
  - destruct (overview_verdicts closed_only) as (_ & _ & H & _).
    apply H. vm_compute. lia.
  - destruct (overview_verdicts no_match) as (_ & _ & _ & H).
    apply H. reflexivity.
Defined.

Lemma non_wins_complement (df : DataFrame) :
  non_wins df = filter (fun r => negb (Qlt_bool 0 (pnl r))) df.
Proof.
  unfold non_wins. apply filter_ext. intro r. unfold Qlt_bool.
  rewrite negb_involutive. reflexivity.
Qed.

Lemma filter_split_length {A} (p : A -> bool) (l : list A) :
  (length (filter p l) + length (filter (fun x => negb (p x)) l) = length l)%nat.
Proof.
  induction l as [|x l IH]; simpl; [reflexivity|].
  destruct (p x); simpl; lia.
Qed.

(** X6.  The win/loss breakdown counts every trade once: the Wins and
    Losses counts add up to the number of trades, a trade is counted as a
    win exactly when it is not counted as a loss, and a trade with pnl 0
    is counted as a loss.  The total shown for the wins is the gross
    profit of the headline. *)
Theorem win_loss_accounts (df : DataFrame) :
  exists nw tw nl tl,
    win_loss df = [("Wins"%string, nw, tw); ("Losses"%string, nl, tl)] /\
    (nw + nl = total_trades df)%nat /\
    nw = length (wins df) /\ nl = length (non_wins df) /\
    tw = gross_profit df /\
    (forall r, In r df -> (In r (wins df) <-> ~ In r (non_wins df))) /\
    (forall r, In r df -> (pnl r == 0)%Q -> In r (non_wins df)).
Proof.
  do 4 eexists. split; [reflexivity|].
  split; [|split; [reflexivity|split; [reflexivity|split; [reflexivity|split]]]].
  - rewrite non_wins_complement. apply filter_split_length.
  - intros r Hr. rewrite non_wins_complement. unfold wins.
    rewrite !filter_In. destruct (Qlt_bool 0 (pnl r)); simpl; split.
    + intros _ [_ C]. discriminate C.
    + tauto.
    + intros [_ C]. discriminate C.
    + intro H. exfalso. apply H. tauto.
  - intros r Hr Hz. apply filter_In. split; [exact Hr|].
    apply Qle_bool_iff. lra.
Qed.

Lemma fold_max_spec (l : list Q) (x : Q) :
  let m := fold_left (fun m y => if Qlt_bool m y then y else m) l x in
  (x <= m)%Q /\ (forall y, In y l -> (y <= m)%Q) /\ (m = x \/ In m l).
Proof.
  revert x. induction l as [|a l IH]; intro x; simpl.
  - split; [apply Qle_refl|]. split; [intros y []|left; reflexivity].
  - destruct (Qlt_bool x a) eqn:E.
    + apply Qlt_bool_iff in E. destruct (IH a) as (H1 & H2 & H3).
      split; [lra|]. split.
      * intros y [<-|Hy]; [exact H1|apply H2, Hy].
      * right. destruct H3 as [->|H3]; [left; reflexivity|right; exact H3].
    + apply Qlt_bool_false_iff in E. destruct (IH x) as (H1 & H2 & H3).
      split; [exact H1|]. split.
      * intros y [<-|Hy]; [lra|apply H2, Hy].
      * destruct H3 as [H3|H3]; [left; exact H3|right; right; exact H3].
Qed.

Lemma fold_min_spec (l : list Q) (x : Q) :
  let m := fold_left (fun m y => if Qlt_bool y m then y else m) l x in
  (m <= x)%Q /\ (forall y, In y l -> (m <= y)%Q) /\ (m = x \/ In m l).
Proof.
  revert x. induction l as [|a l IH]; intro x; simpl.
  - split; [apply Qle_refl|]. split; [intros y []|left; reflexivity].
  - destruct (Qlt_bool a x) eqn:E.
    + apply Qlt_bool_iff in E. destruct (IH a) as (H1 & H2 & H3).
      split; [lra|]. split.
      * intros y [<-|Hy]; [exact H1|apply H2, Hy].
      * right. destruct H3 as [->|H3]; [left; reflexivity|right; exact H3].
    + apply Qlt_bool_false_iff in E. destruct (IH x) as (H1 & H2 & H3).
      split; [exact H1|]. split.
      * intros y [<-|Hy]; [lra|apply H2, Hy].
      * destruct H3 as [H3|H3]; [left; exact H3|right; right; exact H3].
Qed.

Lemma head_of_sorted {A} (before : A -> A -> bool) (l : list A) (x : A) :
  (forall a b, before a b = true -> before b a = false) ->
  (forall a b c, before b a = false -> before c b = false -> before c a = false) ->
  hd_error (stable_sort before l) = Some x ->
  In x l /\ forall y, In y l -> before y x = false.
Proof.
  intros Has Hnt Hhd.
  pose proof (stable_sort_sorted before Has Hnt l) as Hs.
  pose proof (stable_sort_perm before l) as Hp.
  destruct (stable_sort before l) as [|z t]; [discriminate|].
  injection Hhd as ->. split.
  - eapply Permutation_in; [exact Hp|]. left. reflexivity.
  - intros y Hy. apply Permutation_sym in Hp.
    apply (Permutation_in _ Hp) in Hy.
    apply StronglySorted_inv in Hs. destruct Hs as [_ Hs].
    rewrite Forall_forall in Hs.
    destruct Hy as [<-|Hy]; [|apply Hs, Hy].
    destruct (before x x) eqn:E; [|reflexivity].
    rewrite (Has _ _ E) in E. discriminate E.
Qed.

(** X7.  On a subset with at least one trade the best trade shown on the
    overview is the pnl of a trade of the subset, no trade has a larger
    one, and it is the pnl of the first row of the best-trades ranking;
    likewise the worst trade is the smallest pnl and heads the worst-trades
    ranking.  On the empty subset both are the missing value. *)
Theorem best_and_worst_trade (df : DataFrame) :
  (df <> [] ->
   exists hi lo,
     best_trade df = Finite hi /\ worst_trade df = Finite lo /\
     (exists r, In r df /\ pnl r = hi) /\ (exists r, In r df /\ pnl r = lo) /\
     (forall r, In r df -> (lo <= pnl r <= hi)%Q) /\
     (forall r, hd_error (nlargest 10 df) = Some r -> (pnl r == hi)%Q) /\
     (forall r, hd_error (nsmallest 10 df) = Some r -> (pnl r == lo)%Q)) /\
  best_trade [] = NaN /\ worst_trade [] = NaN.
Proof.
  split; [|split; reflexivity]. intro Hne.
  destruct df as [|r0 df]; [contradiction|].
  unfold best_trade, worst_trade, pnl_col. cbn [map series_max series_min].
  pose proof (fold_max_spec (map pnl df) (pnl r0)) as HM.
  pose proof (fold_min_spec (map pnl df) (pnl r0)) as Hm.
  cbv zeta in HM, Hm.
  remember (fold_left (fun m y => if Qlt_bool m y then y else m)
              (map pnl df) (pnl r0)) as hi eqn:Ehi.
  remember (fold_left (fun m y => if Qlt_bool y m then y else m)
              (map pnl df) (pnl r0)) as lo eqn:Elo.
  clear Ehi Elo.
  destruct HM as (M1 & M2 & M3). destruct Hm as (m1 & m2 & m3).
  assert (Hhi : exists r, In r (r0 :: df) /\ pnl r = hi).
  { destruct M3 as [->|M3]; [exists r0; split; [left|]; reflexivity|].
    apply in_map_iff in M3. destruct M3 as (r & Hr & Hin).
    exists r. split; [right; exact Hin|exact Hr]. }
  assert (Hlo : exists r, In r (r0 :: df) /\ pnl r = lo).
  { destruct m3 as [->|m3]; [exists r0; split; [left|]; reflexivity|].
    apply in_map_iff in m3. destruct m3 as (r & Hr & Hin).
    exists r. split; [right; exact Hin|exact Hr]. }
  assert (Hb : forall r, In r (r0 :: df) -> (lo <= pnl r <= hi)%Q).
  { intros r [<-|Hr]; [split; assumption|].
    split; [apply m2|apply M2]; apply in_map, Hr. }
  exists hi, lo. repeat split; try assumption; try apply Hb; try assumption.
  - intros r Hhd. unfold nlargest in Hhd.
    assert (Hhd' : hd_error (stable_sort pnl_desc (r0 :: df)) = Some r).
    { destruct (stable_sort pnl_desc (r0 :: df)); [discriminate|exact Hhd]. }
    destruct (head_of_sorted pnl_desc _ r pnl_desc_asym pnl_desc_negtrans Hhd')
      as [Hin Hall].
    destruct Hhi as (x & Hx & <-).
    specialize (Hall x Hx). unfold pnl_desc in Hall.
    apply Qlt_bool_false_iff in Hall.
    destruct (Hb r Hin) as [_ H2]. lra.
  - intros r Hhd. unfold nsmallest in Hhd.
    assert (Hhd' : hd_error (stable_sort pnl_asc (r0 :: df)) = Some r).
    { destruct (stable_sort pnl_asc (r0 :: df)); [discriminate|exact Hhd]. }
    destruct (head_of_sorted pnl_asc _ r pnl_asc_asym pnl_asc_negtrans Hhd')
      as [Hin Hall].
    destruct Hlo as (x & Hx & <-).
    specialize (Hall x Hx). unfold pnl_asc in Hall.
    apply Qlt_bool_false_iff in Hall.
    destruct (Hb r Hin) as [H1 _]. lra.
Qed.

Lemma best_and_worst_trade_witness :
  exists hi lo,
    best_trade sample_store = Finite hi /\ worst_trade sample_store = Finite lo /\
    (lo <= pnl qqq_trade <= hi)%Q.
Proof.
  destruct (best_and_worst_trade sample_store) as [H _].
  destruct H as (hi & lo & H1 & H2 & _ & _ & H5 & _); [discriminate|].
  exists hi, lo. split; [exact H1|]. split; [exact H2|].
  apply H5. right. left. reflexivity.
Defined.

(** ** Groups as a partition *)

Lemma pair_eqb_eq (a b : string * string) : pair_eqb a b = true <-> a = b.
Proof.
  unfold pair_eqb. destruct a as [a1 a2], b as [b1 b2]. simpl.
  rewrite andb_true_iff, !String.eqb_eq. split.
  - intros [-> ->]. reflexivity.
  - intro H. injection H as -> ->. tauto.
Qed.

Lemma pair_ltb_irrefl (a : string * string) : pair_ltb a a = false.
Proof.
  unfold pair_ltb. rewrite !string_ltb_irrefl, andb_false_r. reflexivity.
Qed.

Lemma concat_filters_perm {A K} (eqb : K -> K -> bool) (key : A -> K)
  (ks : list K) :
  (forall a b, eqb a b = true <-> a = b) ->
  NoDup ks ->
  forall l : list A,
    (forall x, In x l -> In (key x) ks) ->
    Permutation (concat (map (fun k => filter (fun x => eqb (key x) k) l) ks)) l.
Proof.
  intros Heq Hnd. induction Hnd as [|k ks Hk Hnd IH]; intros l Hl.
  - destruct l as [|x l]; [constructor|]. destruct (Hl x (or_introl eq_refl)).
  - simpl.
    assert (E : map (fun k' => filter (fun x => eqb (key x) k') l) ks
                = map (fun k' => filter (fun x => eqb (key x) k')
                                   (filter (fun x => negb (eqb (key x) k)) l)) ks).
    { apply map_ext_in. intros k' Hk'. rewrite filter_twice.
      apply filter_ext. intro x.
      destruct (eqb (key x) k') eqn:E1; [|rewrite andb_false_r; reflexivity].
      destruct (eqb (key x) k) eqn:E2; [|reflexivity].
      apply Heq in E1, E2. subst. contradiction. }
    rewrite E.
    eapply perm_trans;
      [apply Permutation_app_head, IH|].
    + intros x Hx. apply filter_In in Hx. destruct Hx as [Hx Hne].
      destruct (Hl x Hx) as [E'|H]; [|exact H].
      apply negb_true_iff in Hne.
      assert (T : eqb (key x) k = true) by (apply Heq; symmetry; exact E').
      congruence.
    + clear. induction l as [|x l IHl]; simpl; [constructor|].
      destruct (eqb (key x) k); simpl.
      * apply perm_skip, IHl.
      * apply Permutation_sym, Permutation_cons_app, Permutation_sym, IHl.
Qed.

Section GroupByPartition.
Context {K : Type}.
Variable key_eqb : K -> K -> bool.
Variable key_ltb : K -> K -> bool.
Variable key : Trade -> K.
Hypothesis key_eqb_eq : forall a b, key_eqb a b = true <-> a = b.
Hypothesis key_ltb_trans :
  forall a b c, key_ltb a b = true -> key_ltb b c = true -> key_ltb a c = true.
Hypothesis key_ltb_total :
  forall a b, key_eqb a b = false -> key_ltb a b = false -> key_ltb b a = true.
Hypothesis key_ltb_irrefl : forall a, key_ltb a a = false.

Lemma add_key_keeps (k x : K) (ks : list K) :
  x = k \/ In x ks -> In x (add_key key_eqb key_ltb k ks).
Proof.
  induction ks as [|k' ks IH]; simpl.
  - intros [->|[]]. left. reflexivity.
  - destruct (key_eqb k k') eqn:E.
    + apply key_eqb_eq in E. subst k'. intros [->|H]; [left; reflexivity|exact H].
    + destruct (key_ltb k k'); simpl.
      * intros [->|H]; [left; reflexivity|right; exact H].
      * intros [->|[->|H]].
        -- right. apply IH. left. reflexivity.
        -- left. reflexivity.
        -- right. apply IH. right. exact H.
Qed.

Lemma group_keys_In (k : K) (df : DataFrame) :
  In k (group_keys key_eqb key_ltb key df) <-> exists r, In r df /\ key r = k.
Proof.
  induction df as [|r df IH]; simpl.
  - split; [intros []|intros (r & [] & _)].
  - split.
    + intro H. apply add_key_In in H. destruct H as [->|H].
      * exists r. split; [left|]; reflexivity.
      * apply IH in H. destruct H as (x & Hx & Hk). exists x. tauto.
    + intros (x & [<-|Hx] & Hk); apply add_key_keeps.
      * left. symmetry. exact Hk.
      * right. apply IH. exists x. tauto.
Qed.

Lemma strictly_sorted_NoDup (l : list K) :
  StronglySorted (fun a b => key_ltb a b = true) l -> NoDup l.
Proof.
  intro Hs. induction Hs as [|a l Hs IH Ha]; constructor; [|exact IH].
  intro Hin. rewrite Forall_forall in Ha. specialize (Ha a Hin).
  rewrite key_ltb_irrefl in Ha. discriminate Ha.
Qed.

Lemma group_keys_NoDup (df : DataFrame) :
  NoDup (group_keys key_eqb key_ltb key df).
Proof.
  apply strictly_sorted_NoDup.
  apply group_keys_sorted; assumption.
Qed.

Lemma groupby_keys (df : DataFrame) :
  map fst (groupby key_eqb key_ltb key df) = group_keys key_eqb key_ltb key df.
Proof. unfold groupby. rewrite map_map. simpl. apply map_id. Qed.

Lemma groupby_In (k : K) (g : DataFrame) (df : DataFrame) :
  In (k, g) (groupby key_eqb key_ltb key df) <->
  In k (group_keys key_eqb key_ltb key df) /\
  g = filter (fun r => key_eqb (key r) k) df.
Proof.
  unfold groupby. rewrite in_map_iff. split.
  - intros (k' & H & Hk'). injection H as -> <-. tauto.
  - intros [Hk ->]. exists k. tauto.
Qed.

Lemma groupby_partitions_gen (df : DataFrame) :
  partitions key_eqb key df (groupby key_eqb key_ltb key df).
Proof.
  unfold partitions. split; [|split; [|split]].
  - rewrite groupby_keys. apply group_keys_NoDup.
  - intros k g H. apply groupby_In in H. destruct H as [Hk ->].
    split; [|reflexivity].
    apply group_keys_In in Hk. destruct Hk as (r & Hr & Hkr).
    intro Hnil.
    assert (Hin : In r (filter (fun r => key_eqb (key r) k) df)).
    { apply filter_In. split; [exact Hr|]. apply key_eqb_eq, Hkr. }
    rewrite Hnil in Hin. destruct Hin.
  - intros r Hr. exists (filter (fun x => key_eqb (key x) (key r)) df). split.
    + apply groupby_In. split; [|reflexivity].
      apply group_keys_In. exists r. tauto.
    + apply filter_In. split; [exact Hr|]. apply key_eqb_eq. reflexivity.
  - unfold groupby. rewrite map_map. simpl.
    apply concat_filters_perm.
    + exact key_eqb_eq.
    + apply group_keys_NoDup.
    + intros r Hr. apply group_keys_In. exists r. tauto.
Qed.
End GroupByPartition.

Lemma groupby_str_partitions (key : Trade -> string) (df : DataFrame) :
  partitions String.eqb key df (groupby_str key df).
Proof.
  apply groupby_partitions_gen.
  - apply String.eqb_eq.
  - apply string_ltb_trans.
  - apply string_ltb_total.
  - apply string_ltb_irrefl.
Qed.

Lemma groupby_pair_partitions (key : Trade -> string * string) (df : DataFrame) :
  partitions pair_eqb key df (groupby_pair key df).
Proof.
  apply groupby_partitions_gen.
  - apply pair_eqb_eq.
  - apply pair_ltb_trans.
  - apply pair_ltb_total.
  - apply pair_ltb_irrefl.
Qed.

Lemma sample_labels_present :
  labels_present type sample_store /\ labels_present status sample_store /\
  labels_present symbol sample_store /\
  labels_present delta_category sample_store.
Proof.
  repeat split; intros r Hr; simpl in Hr;
    repeat (destruct Hr as [<-|Hr]; [reflexivity|]); destruct Hr.
Qed.

Lemma dropna_present (keys : list (Trade -> string)) (df : DataFrame) :
  (forall key, In key keys -> labels_present key df) -> dropna keys df = df.
Proof.
  intro H. apply filter_all. intros r Hr. apply forallb_forall.
  intros key Hk. rewrite (H key Hk r Hr). reflexivity.
Qed.

Lemma dropna_In (keys : list (Trade -> string)) (df : DataFrame) (r : Trade) :
  In r (dropna keys df) <->
  In r df /\ forall key, In key keys -> isna (key r) = false.
Proof.
  unfold dropna. rewrite filter_In, forallb_forall.
  split; intros [H1 H2]; (split; [exact H1|]); intros key Hk;
    specialize (H2 key Hk).
  - apply negb_true_iff, H2.
  - rewrite H2. reflexivity.
Qed.

(** X9.  Grouping splits the rows in which no grouping label is missing
    and leaves out the others: for a grouping by one label or by two, the
    groups carry distinct labels, none is empty, each holds exactly the
    kept trades with its label in their original order, and the groups
    together hold every kept trade once; no group holds a trade with a
    missing label.  On a subset without a missing label the groups are
    those the tables are built from, and they split the whole subset. *)
Theorem groupby_partitions (df : DataFrame) :
  (forall key : Trade -> string,
      partitions String.eqb key (dropna [key] df) (groupby_dropna key df) /\
      (forall k g r, In (k, g) (groupby_dropna key df) -> In r g ->
                     In r df /\ isna (key r) = false) /\
      (labels_present key df ->
       groupby_dropna key df = groupby_str key df /\
       partitions String.eqb key df (groupby_str key df))) /\
  (forall key1 key2 : Trade -> string,
      partitions pair_eqb (fun r => (key1 r, key2 r)) (dropna [key1; key2] df)
        (groupby2_dropna key1 key2 df) /\
      (forall k g r, In (k, g) (groupby2_dropna key1 key2 df) -> In r g ->
                     In r df /\ isna (key1 r) = false /\ isna (key2 r) = false) /\
      (labels_present key1 df -> labels_present key2 df ->
       groupby2_dropna key1 key2 df
       = groupby_pair (fun r => (key1 r, key2 r)) df /\
       partitions pair_eqb (fun r => (key1 r, key2 r)) df
         (groupby_pair (fun r => (key1 r, key2 r)) df))).
Proof.
  split.
  - intro key. unfold groupby_dropna.
    pose proof (groupby_str_partitions key (dropna [key] df)) as P.
    split; [exact P|]. split.
    + intros k g r Hg Hr.
      destruct P as (_ & Hgroups & _).
      destruct (Hgroups k g Hg) as [_ ->].
      apply filter_In in Hr. destruct Hr as [Hr _].
      apply dropna_In in Hr. destruct Hr as [Hr Hk].
      split; [exact Hr|]. apply Hk. left. reflexivity.
    + intro Hp.
      rewrite (dropna_present [key] df)
        by (intros k [<-|[]]; exact Hp).
      split; [reflexivity|apply groupby_str_partitions].
  - intros key1 key2. unfold groupby2_dropna.
    pose proof (groupby_pair_partitions (fun r => (key1 r, key2 r))
                  (dropna [key1; key2] df)) as P.
    split; [exact P|]. split.
    + intros k g r Hg Hr.
      destruct P as (_ & Hgroups & _).
      destruct (Hgroups k g Hg) as [_ ->].
      apply filter_In in Hr. destruct Hr as [Hr _].
      apply dropna_In in Hr. destruct Hr as [Hr Hk].
      split; [exact Hr|]. split; apply Hk; simpl; tauto.
    + intros Hp1 Hp2.
      rewrite (dropna_present [key1; key2] df)
        by (intros k [<-|[<-|[]]]; assumption).
      split; [reflexivity|apply groupby_pair_partitions].
Qed.

Lemma groupby_partitions_witness :
  partitions String.eqb symbol sample_store (groupby_str symbol sample_store) /\
  partitions pair_eqb (fun r => (type r, status r)) sample_store
    (groupby_pair (fun r => (type r, status r)) sample_store) /\
  length (groupby_dropna symbol symbol_missing) = 1%nat.
Proof.
  destruct (groupby_partitions sample_store) as [H1 H2].
  split; [|split].
  - destruct (H1 symbol) as (_ & _ & H). apply H. apply sample_labels_present.
  - destruct (H2 type status) as (_ & _ & H).
    apply H; apply sample_labels_present.
  - reflexivity.
Defined.

Lemma list_sum_perm (l l' : list nat) :
  Permutation l l' -> list_sum l = list_sum l'.
Proof.
  intro H. induction H as [|x l l' _ IH|x y l|l l' l'' _ IH1 _ IH2]; simpl; lia.
Qed.

Lemma groups_length {K} (gs : list (K * DataFrame)) :
  list_sum (map (fun kg => length (snd kg)) gs) = length (concat (map snd gs)).
Proof.
  induction gs as [|[k g] gs IH]; simpl; [reflexivity|].
  rewrite length_app, IH. reflexivity.
Qed.

Lemma grouped_counts {K R} (key_eqb : K -> K -> bool) (key : Trade -> K)
  (df : DataFrame) (gs : list (K * DataFrame)) (f : DataFrame -> R)
  (cnt : R -> nat) :
  partitions key_eqb key df gs ->
  (forall g, cnt (f g) = length g) ->
  list_sum (map (fun x => cnt (snd x)) (map (fun kg => (fst kg, f (snd kg))) gs))
  = length df.
Proof.
  intros (_ & _ & _ & Hp) Hc.
  rewrite map_map.
  rewrite (map_ext (fun x : K * DataFrame => cnt (snd (fst x, f (snd x))))
             (fun kg => length (snd kg)))
    by (intros kg; simpl; apply Hc).
  rewrite groups_length. apply Permutation_length, Hp.
Qed.

Lemma sorted_counts {K R} (col : R -> Q) (cnt : R -> nat) (t : list (K * R)) :
  list_sum (map (fun x => cnt (snd x)) (sort_desc col t))
  = list_sum (map (fun x => cnt (snd x)) t).
Proof.
  apply list_sum_perm, Permutation_map. unfold sort_desc.
  apply stable_sort_perm.
Qed.

Lemma tables_account (df : DataFrame) :
  list_sum (map (fun x => Strategy.Trades (snd x)) (strategy_stats df))
  = total_trades df /\
  list_sum (map (fun x => Status.Trades (snd x)) (status_stats df))
  = total_trades df /\
  list_sum (map (fun x => Pnl.Trades (snd x)) (status_strategy df))
  = total_trades df /\
  list_sum (map (fun x => Pnl.Trades (snd x)) (symbol_stats df))
  = total_trades df /\
  list_sum (map (fun x => Delta.Trades (snd x)) (delta_strategy df))
  = total_trades df /\
  list_sum (map (fun x => Pnl.Trades (snd x)) (delta_perf df))
  = total_trades df.
Proof.
  unfold total_trades.
  split; [|split; [|split; [|split; [|split]]]].
  - unfold strategy_stats. rewrite sorted_counts.
    apply (grouped_counts String.eqb type df (groupby_str type df)
             (fun g => Strategy.mk (agg_total g) (agg_avg g) (agg_median g)
                         (length g) (agg_win_rate g) (agg_mean returnPct g)
                         (agg_mean daysInTrade g)) Strategy.Trades).
    + apply groupby_str_partitions.
    + reflexivity.
  - unfold status_stats.
    apply (grouped_counts String.eqb status df (groupby_str status df)
             (fun g => Status.mk (agg_total g) (agg_avg g) (agg_median g)
                         (length g) (agg_win_rate g)
                         (agg_mean daysInTrade g)) Status.Trades).
    + apply groupby_str_partitions.
    + reflexivity.
  - unfold status_strategy.
    apply (grouped_counts pair_eqb (fun r => (type r, status r)) df _
             pnl_row Pnl.Trades).
    + apply groupby_pair_partitions.
    + reflexivity.
  - unfold symbol_stats. rewrite sorted_counts.
    apply (grouped_counts String.eqb symbol df _ pnl_row Pnl.Trades).
    + apply groupby_str_partitions.
    + reflexivity.
  - unfold delta_strategy. rewrite sorted_counts.
    apply (grouped_counts String.eqb type df (groupby_str type df)
             (fun g => Delta.mk (agg_mean estimated_delta g)
                         (round_dec 2 (series_sum (map estimated_delta g)))
                         (agg_total g) (length g)) Delta.Trades).
    + apply groupby_str_partitions.
    + reflexivity.
  - unfold delta_perf.
    apply (grouped_counts String.eqb delta_category df _ pnl_row Pnl.Trades).
    + apply groupby_str_partitions.
    + reflexivity.
Qed.



(** ** Rows of the grouped tables *)

Lemma table_In {K R} (key_eqb key_ltb : K -> K -> bool) (key : Trade -> K)
  (f : DataFrame -> R) (df : DataFrame) (k : K) (row : R) :
  (forall a b, key_eqb a b = true <-> a = b) ->
  In (k, row) (map (fun kg => (fst kg, f (snd kg)))
                 (groupby key_eqb key_ltb key df)) <->
  (exists r, In r df /\ key r = k) /\
  row = f (filter (fun r => key_eqb (key r) k) df).
Proof.
  intro Heq. rewrite in_map_iff. split.
  - intros ([k' g] & H & Hin). simpl in H. injection H as -> <-.
    apply groupby_In in Hin. destruct Hin as [Hk ->].
    apply (group_keys_In _ _ _ Heq) in Hk. tauto.
  - intros [Hk ->].
    exists (k, filter (fun r => key_eqb (key r) k) df). split; [reflexivity|].
    apply groupby_In. split; [|reflexivity].
    apply (group_keys_In _ _ _ Heq). exact Hk.
Qed.

Lemma sort_desc_In {K R} (col : R -> Q) (t : list (K * R)) (x : K * R) :
  In x (sort_desc col t) <-> In x t.
Proof.
  unfold sort_desc. split; apply Permutation_in.
  - apply stable_sort_perm.
  - apply Permutation_sym, stable_sort_perm.
Qed.

Lemma combine_map {A B} (f : A -> B) (l : list A) :
  combine l (map f l) = map (fun x => (x, f x)) l.
Proof. induction l as [|x l IH]; simpl; [|rewrite IH]; reflexivity. Qed.

Lemma profit_factor_finite (g : DataFrame) :
  is_not_inf (profit_factor g) = true <->
  exists r, In r g /\ (pnl r < 0)%Q.
Proof.
  unfold profit_factor. split.
  - destruct (Qlt_bool 0 (gross_loss g)) eqn:E; [intros _|discriminate].
    apply Qlt_bool_iff in E.
    destruct (losses g) as [|r l] eqn:El.
    + unfold gross_loss in E. rewrite El in E. vm_compute in E. discriminate E.
    + exists r. apply losses_negative. rewrite El. left. reflexivity.
  - intros (r & Hr & Hneg).
    pose proof (losses_sum_neg g r Hr Hneg) as Hs.
    pose proof (gross_loss_opp g) as Ho.
    replace (Qlt_bool 0 (gross_loss g)) with true; [reflexivity|].
    symmetry. apply Qlt_bool_iff. lra.
Qed.

Lemma strategy_stats_In (df : DataFrame) (s : string) (row : Strategy.row) :
  In (s, row) (strategy_stats df) ->
  (exists r, In r df /\ type r = s) /\
  Strategy.Trades row = length (strategy_trades s df).
Proof.
  unfold strategy_stats. rewrite sort_desc_In. intro H.
  apply (table_In String.eqb String.ltb type
           (fun g => Strategy.mk (agg_total g) (agg_avg g) (agg_median g)
                       (length g) (agg_win_rate g) (agg_mean returnPct g)
                       (agg_mean daysInTrade g))
           df s row String.eqb_eq) in H.
  destruct H as [Hk ->]. split; [exact Hk|reflexivity].
Qed.

Lemma strategy_stats_key (df : DataFrame) (s : string) :
  (exists r, In r df /\ type r = s) ->
  exists row, In (s, row) (strategy_stats df).
Proof.
  intro Hk. eexists. unfold strategy_stats. rewrite sort_desc_In.
  apply (table_In String.eqb String.ltb type
           (fun g => Strategy.mk (agg_total g) (agg_avg g) (agg_median g)
                       (length g) (agg_win_rate g) (agg_mean returnPct g)
                       (agg_mean daysInTrade g))
           df s _ String.eqb_eq).
  split; [exact Hk|reflexivity].
Qed.


Lemma find_key {R} (k : string) (t : list (string * R)) :
  match find (fun x => (fst x =? k)%string) t with
  | Some x => fst x = k /\ In x t
  | None => forall x, In x t -> fst x <> k
  end.
Proof.
  destruct (find _ t) as [x|] eqn:E.
  - apply find_some in E. destruct E as [Hin E].
    apply String.eqb_eq in E. tauto.
  - intros x Hx. apply (find_none _ _ E) in Hx.
    apply String.eqb_neq in Hx. exact Hx.
Qed.

Lemma in_index_iff {R} (k : string) (t : list (string * R)) :
  in_index k t = true <-> exists row, In (k, row) t.
Proof.
  unfold in_index. rewrite existsb_exists. split.
  - intros ([k' row] & Hin & E). simpl in E. apply String.eqb_eq in E.
    subst. exists row. exact Hin.
  - intros (row & Hin). exists (k, row). split; [exact Hin|].
    apply String.eqb_refl.
Qed.

Lemma status_stats_In (df : DataFrame) (k : string) (row : Status.row) :
  In (k, row) (status_stats df) <->
  (exists r, In r df /\ status r = k) /\
  row = (let g := filter (fun r => (status r =? k)%string) df in
         Status.mk (agg_total g) (agg_avg g) (agg_median g) (length g)
           (agg_win_rate g) (agg_mean daysInTrade g)).
Proof.
  unfold status_stats.
  apply (table_In String.eqb String.ltb status
           (fun g => Status.mk (agg_total g) (agg_avg g) (agg_median g)
                       (length g) (agg_win_rate g) (agg_mean daysInTrade g))
           df k row String.eqb_eq).
Qed.

Lemma status_present_iff (df : DataFrame) (k : string) :
  in_index k (status_stats df) = true <-> exists r, In r df /\ status r = k.
Proof.
  rewrite in_index_iff. split.
  - intros (row & H). apply status_stats_In in H. tauto.
  - intro H. eexists. apply status_stats_In. split; [exact H|reflexivity].
Qed.



(** ** Pivot of the strategy and status table *)

Lemma has_duplicates_NoDup (l : list (string * string)) :
  NoDup l -> has_duplicates l = false.
Proof.
  intro H. induction H as [|x l Hx Hnd IH]; simpl; [reflexivity|].
  rewrite IH, orb_false_r.
  destruct (existsb (pair_eqb x) l) eqn:E; [|reflexivity].
  apply existsb_exists in E. destruct E as (y & Hy & E).
  apply pair_eqb_eq in E. subst y. contradiction.
Qed.

Lemma status_strategy_In (df : DataFrame) (k : string * string) (row : Pnl.row) :
  In (k, row) (status_strategy df) <->
  (exists r, In r df /\ (type r, status r) = k) /\
  row = pnl_row (cell_trades (fst k) (snd k) df).
Proof.
  unfold status_strategy, cell_trades. destruct k as [ty st]. simpl.
  apply (table_In pair_eqb pair_ltb (fun r => (type r, status r)) pnl_row
           df (ty, st) row pair_eqb_eq).
Qed.

Lemma cell_trades_In (ty st : string) (df : DataFrame) (r : Trade) :
  In r (cell_trades ty st df) <-> In r df /\ type r = ty /\ status r = st.
Proof.
  unfold cell_trades. rewrite filter_In, pair_eqb_eq. split.
  - intros [H E]. injection E as -> ->. tauto.
  - intros (H & -> & ->). tauto.
Qed.

Lemma pivot_cell (df : DataFrame) (ty st : string) :
  match find (fun x => pair_eqb (fst x) (ty, st)) (status_strategy df) with
  | Some x => Finite (Pnl.Total_PnL (snd x))
  | None => NaN
  end
  = match cell_trades ty st df with
    | [] => NaN
    | _ :: _ => Finite (agg_total (cell_trades ty st df))
    end.
Proof.
  destruct (find _ (status_strategy df)) as [[k row]|] eqn:E.
  - apply find_some in E. destruct E as [Hin E]. simpl in E.
    apply pair_eqb_eq in E. subst k.
    apply status_strategy_In in Hin. destruct Hin as [(r & Hr & Hk) ->].
    simpl. injection Hk as Ht Hs.
    assert (Hc : In r (cell_trades ty st df)) by (apply cell_trades_In; tauto).
    destruct (cell_trades ty st df); [destruct Hc|reflexivity].
  - destruct (cell_trades ty st df) as [|r g] eqn:Eg; [reflexivity|].
    exfalso.
    assert (Hc : In r (cell_trades ty st df)) by (rewrite Eg; left; reflexivity).
    apply cell_trades_In in Hc. destruct Hc as (Hr & Ht & Hs).
    assert (Hin : In ((ty, st), pnl_row (cell_trades ty st df))
                     (status_strategy df)).
    { apply status_strategy_In. simpl. split; [|reflexivity].
      exists r. subst. tauto. }
    apply (find_none _ _ E) in Hin. simpl in Hin.
    assert (T : pair_eqb (ty, st) (ty, st) = true)
      by (apply pair_eqb_eq; reflexivity).
    congruence.
Qed.

Lemma pivot_total_grid (df : DataFrame) :
  exists index columns cells,
    pivot_total df = Some (index, columns, cells) /\
    StronglySorted (fun a b => String.ltb a b = true) index /\
    StronglySorted (fun a b => String.ltb a b = true) columns /\
    (forall ty, In ty index <-> exists r, In r df /\ type r = ty) /\
    (forall st, In st columns <-> exists r, In r df /\ status r = st) /\
    cells = map (fun ty =>
                   map (fun st =>
                          match cell_trades ty st df with
                          | [] => NaN
                          | _ :: _ => Finite (agg_total (cell_trades ty st df))
                          end) columns) index.
Proof.
  unfold pivot_total, pivot.
  assert (Hnd : has_duplicates (map fst (status_strategy df)) = false).
  { apply has_duplicates_NoDup. unfold status_strategy.
    rewrite map_map. simpl.
    change (map (fun x : string * string * DataFrame => fst x)
              (groupby_pair (fun r => (type r, status r)) df))
      with (map fst (groupby_pair (fun r => (type r, status r)) df)).
    apply (groupby_pair_partitions (fun r => (type r, status r)) df). }
  rewrite Hnd. do 3 eexists. split; [reflexivity|].
  split; [apply sorted_ascending, unique_NoDup|].
  split; [apply sorted_ascending, unique_NoDup|].
  split; [|split].
  - intro ty. rewrite sorted_unique_In, in_map_iff. split.
    + intros ([[t s] row] & E & Hin). simpl in E. subst t.
      apply status_strategy_In in Hin. destruct Hin as [(r & Hr & Hk) _].
      injection Hk as Ht Hs. exists r. tauto.
    + intros (r & Hr & Ht).
      exists ((ty, status r), pnl_row (cell_trades ty (status r) df)).
      split; [reflexivity|]. apply status_strategy_In. simpl.
      split; [|reflexivity]. exists r. subst. tauto.
  - intro st. rewrite sorted_unique_In, in_map_iff. split.
    + intros ([[t s] row] & E & Hin). simpl in E. subst s.
      apply status_strategy_In in Hin. destruct Hin as [(r & Hr & Hk) _].
      injection Hk as Ht Hs. exists r. tauto.
    + intros (r & Hr & Hs).
      exists ((type r, st), pnl_row (cell_trades (type r) st df)).
      split; [reflexivity|]. apply status_strategy_In. simpl.
      split; [|reflexivity]. exists r. subst. tauto.
  - apply map_ext. intro ty. apply map_ext. intro st. apply pivot_cell.
Qed.



(** ** Order of the trade log *)

Lemma cell_ltb_asym (c : Column) (x y : CsvRow) :
  cell_ltb c x y = true -> cell_ltb c y x = false.
Proof.
  destruct c; simpl;
    try apply string_ltb_asym;
    try (rewrite Z.ltb_lt, Z.ltb_ge; lia);
    rewrite Qlt_bool_iff, Qlt_bool_false_iff; lra.
Qed.

Lemma cell_ltb_negtrans (c : Column) (x y z : CsvRow) :
  cell_ltb c y x = false -> cell_ltb c z y = false -> cell_ltb c z x = false.
Proof.
  destruct c; simpl;
    try apply string_ltb_negtrans;
    try (rewrite !Z.ltb_ge; lia);
    rewrite !Qlt_bool_false_iff; lra.
Qed.



(** ** Loading *)

Lemma load_row_fields (c : CsvRow) (r : Trade) :
  load_row c = Some r ->
  to_datetime (csv_openDate c) = Some (openDate r) /\
  to_datetime (csv_closeDate c) = Some (closeDate r) /\
  type r = csv_type c /\ symbol r = csv_symbol c /\ status r = csv_status c /\
  quantity r = csv_quantity c /\ pnl r = csv_pnl c /\
  returnPct r = csv_returnPct c /\ daysInTrade r = csv_daysInTrade c /\
  estimated_delta r = csv_estimated_delta c /\
  delta_category r = csv_delta_category c /\
  winning_trade r = Qlt_bool 0 (pnl r) /\
  month r = to_period_M (openDate r).
Proof.
  unfold load_row.
  destruct (to_datetime (csv_openDate c)) as [o|]; [|discriminate].
  destruct (to_datetime (csv_closeDate c)) as [cl|]; [|discriminate].
  intro H. injection H as <-. simpl. repeat split.
Qed.

Lemma load_data_some (rows : list CsvRow) :
  forall df, load_data rows = Some df ->
             Forall2 (fun c r => load_row c = Some r) rows df.
Proof.
  induction rows as [|c rows IH]; intros df H; simpl in H.
  - injection H as <-. constructor.
  - destruct (load_row c) as [r|] eqn:Er; [|discriminate].
    destruct (load_data rows) as [df'|]; [|discriminate].
    injection H as <-. constructor; [exact Er|]. apply IH. reflexivity.
Qed.

Lemma load_data_days (rows : list CsvRow) :
  Forall (fun c => written_as_day (csv_openDate c) /\
                   written_as_day (csv_closeDate c)) rows ->
  exists df, load_data rows = Some df.
Proof.
  unfold written_as_day.
  induction 1 as [|c rows [Ho Hc] _ [df IH]]; simpl; [eexists; reflexivity|].
  unfold load_row.
  destruct (to_datetime (csv_openDate c)) as [o|]; [|contradiction].
  destruct (to_datetime (csv_closeDate c)) as [cl|]; [|contradiction].
  rewrite IH. eexists. reflexivity.
Qed.

Lemma to_datetime_present (s : string) (t : Timestamp) :
  to_datetime s = Some t -> t <> NaT.
Proof.
  unfold to_datetime. intro H.
  do 10 (destruct s as [|? s]; [discriminate H|]).
  destruct s; [|discriminate H].
  repeat match type of H with
         | context [if ?b then _ else _] =>
             destruct b eqn:?; try discriminate H
         | context [match ?x with _ => _ end] =>
             destruct x eqn:?; try discriminate H
         end.
  injection H as <-.
  match goal with
  | E : in_bounds _ = true |- _ =>
      unfold in_bounds, TS_MIN in E; apply andb_true_iff in E;
      destruct E as [E _]; apply Z.leb_le in E
  end.
  unfold NaT. lia.
Qed.

(** X15.  Loading a file whose date cells are all calendar days written
    YYYY-MM-DD and whose label cells hold no NA text: the store has one
    record per row, in row order, with the nine stored labels and figures
    taken over unchanged, no open date and no label missing, the winning
    flag set exactly on the records with a positive pnl and the month
    taken from the open date; every filtered subset keeps these two
    derived columns in step. *)
Theorem load_data_outcome (rows : list CsvRow) :
  Forall (fun c => written_as_day (csv_openDate c) /\
                   written_as_day (csv_closeDate c)) rows ->
  Forall (fun c => isna (csv_type c) = false /\ isna (csv_symbol c) = false /\
                   isna (csv_status c) = false /\
                   isna (csv_delta_category c) = false) rows ->
  exists df,
    load_data rows = Some df /\
    length df = length rows /\
    Forall2 (fun c r =>
               type r = csv_type c /\ symbol r = csv_symbol c /\
               status r = csv_status c /\ quantity r = csv_quantity c /\
               pnl r = csv_pnl c /\ returnPct r = csv_returnPct c /\
               daysInTrade r = csv_daysInTrade c /\
               estimated_delta r = csv_estimated_delta c /\
               delta_category r = csv_delta_category c) rows df /\
    dates_present df /\
    labels_present type df /\ labels_present symbol df /\
    labels_present status df /\ labels_present delta_category df /\
    (forall w r, In r (filtered_df df w) ->
                 (winning_trade r = true <-> (0 < pnl r)%Q) /\
                 month r = to_period_M (openDate r)).
Proof.
  intros Hd Hl. destruct (load_data_days rows Hd) as [df E].
  exists df. split; [exact E|].
  apply load_data_some in E.
  assert (Hrow : forall r, In r df ->
                   exists c, In c rows /\ load_row c = Some r).
  { clear Hd Hl. induction E as [|c x rows df Hx _ IH]; intros r Hr;
      [destruct Hr|].
    destruct Hr as [<-|Hr].
    - exists c. split; [left; reflexivity|exact Hx].
    - destruct (IH r Hr) as (c' & Hc' & Hr'). exists c'. split; [right|]; assumption. }
  rewrite Forall_forall in Hl.
  split; [symmetry; eapply Forall2_length; exact E|]. split.
  { eapply Forall2_impl; [|exact E]. intros c r Hr.
    apply load_row_fields in Hr. tauto. }
  split.
  { intros r Hr. destruct (Hrow r Hr) as (c & _ & Hc).
    apply load_row_fields in Hc. destruct Hc as (Ho & _).
    eapply to_datetime_present, Ho. }
  assert (Hlab : forall r, In r df ->
                   isna (type r) = false /\ isna (symbol r) = false /\
                   isna (status r) = false /\
                   isna (delta_category r) = false).
  { intros r Hr. destruct (Hrow r Hr) as (c & Hc & Hload).
    apply load_row_fields in Hload.
    destruct Hload as (_ & _ & -> & -> & -> & _ & _ & _ & _ & _ & -> & _).
    apply Hl, Hc. }
  split; [intros r Hr; apply Hlab, Hr|].
  split; [intros r Hr; apply Hlab, Hr|].
  split; [intros r Hr; apply Hlab, Hr|].
  split; [intros r Hr; apply Hlab, Hr|].
  intros w r Hr. rewrite filtered_df_filter in Hr.
  apply filter_In in Hr. destruct Hr as [Hr _].
  destruct (Hrow r Hr) as (c & _ & Hc).
  apply load_row_fields in Hc.
  destruct Hc as (_ & _ & _ & _ & _ & _ & _ & _ & _ & _ & _ & Hw & Hm).
  rewrite Hw, Qlt_bool_iff. tauto.
Qed.

Lemma load_data_outcome_witness :
  exists df,
    load_data [mkCsvRow "2024-03-01" "2024-03-08" "Iron Condor" "SPY" "closed"
                 1 100 (12 # 100) 7 0 "Neutral"] = Some df /\
    length df = 1%nat /\ dates_present df.
Proof.
  destruct (load_data_outcome
              [mkCsvRow "2024-03-01" "2024-03-08" "Iron Condor" "SPY" "closed"
                 1 100 (12 # 100) 7 0 "Neutral"])
    as (df & H1 & H2 & _ & H3 & _).
  - constructor; [|constructor]. split; discriminate.
  - constructor; [|constructor]. repeat split.
  - exists df. repeat split; assumption.
Defined.

(** ** Connectivity probes *)

Lemma plain_verdict_true (r : reply) :
  TradierApi.plain_verdict r = true <-> exists data, r = Response 200 (Some data).
Proof.
  unfold TradierApi.plain_verdict. split.
  - destruct r as [e|code [data|]]; try discriminate;
      destruct (code =? 200) eqn:E; try discriminate.
    apply Z.eqb_eq in E. subst. intros _. exists data. reflexivity.
  - intros (data & ->). reflexivity.
Qed.

Lemma chains_verdict_true (r : reply) :
  TradierApi.chains_verdict r = true <->
  exists data, r = Response 200 (Some data) /\
               TradierApi.chain_report data = true.
Proof.
  unfold TradierApi.chains_verdict. split.
  - destruct r as [e|code [data|]]; try discriminate;
      destruct (code =? 200) eqn:E; try discriminate.
    apply Z.eqb_eq in E. subst. intro H. exists data. tauto.
  - intros (data & -> & H). exact H.
Qed.

(** X16.  Without an API key [main] sends nothing: when the variable is
    unset or empty the run stops before the first request.  With a key it
    sends exactly four requests, to the profile, quotes, expirations and
    chains endpoints of the sandbox in that order, each carrying the key
    as bearer token, and reports on four tests. *)
Theorem main_requests (net : Network) (key : option string) (log : Log) :
  (TradierApi.key_missing key = true <-> key = None \/ key = Some ""%string) /\
  (TradierApi.key_missing key = true ->
   TradierApi.main net key log = (None, log)) /\
  (TradierApi.key_missing key = false ->
   exists s,
     TradierApi.main net key log
     = (Some s,
        log ++ [TradierApi.profile_request key; TradierApi.quotes_request key;
                TradierApi.expirations_request key;
                TradierApi.chains_request key]) /\
     TradierApi.total s = 4%nat /\
     map fst (TradierApi.results s)
     = ["User Profile"; "Market Quotes"; "Options Expirations";
        "Options Chains"]%string /\
     (TradierApi.passed s <= 4)%nat /\
     forall r, In r [TradierApi.profile_request key;
                     TradierApi.quotes_request key;
                     TradierApi.expirations_request key;
                     TradierApi.chains_request key] ->
               authorization r = bearer key /\
               String.prefix TradierApi.SANDBOX_BASE_URL (url r) = true).
Proof.
  split; [|split].
  - unfold TradierApi.key_missing. destruct key as [k|].
    + rewrite String.eqb_eq. split.
      * intros ->. right. reflexivity.
      * intros [H|H]; [discriminate|]. injection H as ->. reflexivity.
    + split; [left|]; reflexivity.
  - intro H. unfold TradierApi.main. rewrite H. reflexivity.
  - intro H. unfold TradierApi.main. rewrite H.
    unfold TradierApi.test_user_profile, TradierApi.test_market_quotes,
      TradierApi.test_options_expirations, TradierApi.test_options_chains,
      http_get.
    eexists. split.
    + rewrite <- !app_assoc. reflexivity.
    + split; [reflexivity|]. split; [reflexivity|]. split.
      * simpl.
        repeat match goal with
               | |- context [if ?b then _ else _] => destruct b
               end; simpl; lia.
      * intros r Hr. simpl in Hr.
        destruct Hr as [<-|[<-|[<-|[<-|[]]]]]; split; reflexivity.
Qed.

Lemma main_requests_witness :
  TradierApi.main (fun _ _ => Raises Timeout) None [] = (None, []) /\
  exists s,
    TradierApi.main (fun _ _ => Raises Timeout) (Some "abc"%string) []
    = (Some s, [TradierApi.profile_request (Some "abc"%string);
                TradierApi.quotes_request (Some "abc"%string);
                TradierApi.expirations_request (Some "abc"%string);
                TradierApi.chains_request (Some "abc"%string)]).
Proof.
  split.
  - apply (main_requests (fun _ _ => Raises Timeout) None []). reflexivity.
  - destruct (main_requests (fun _ _ => Raises Timeout) (Some "abc"%string) [])
      as (_ & _ & H).
    destruct H as (s & Hs & _); [reflexivity|].
    exists s. exact Hs.
Defined.

(** X17.  [main] announces that all tests passed exactly when each of
    the four requests was answered with status 200 and a JSON body and the
    report on the option chain went through; the count of passed tests is
    the number of endpoints for which that holds.  An exception of the
    network, a status other than 200 or a body that is not JSON fails the
    test of that endpoint and never ends the run. *)
Theorem main_verdict (net : Network) (key : option string) (log : Log)
  (s : TradierApi.Summary) (log' : Log) :
  TradierApi.main net key log = (Some s, log') ->
  let n := length log in
  let a1 := net n (TradierApi.profile_request key) in
  let a2 := net (n + 1)%nat (TradierApi.quotes_request key) in
  let a3 := net (n + 2)%nat (TradierApi.expirations_request key) in
  let a4 := net (n + 3)%nat (TradierApi.chains_request key) in
  TradierApi.results s
  = [("User Profile"%string, TradierApi.plain_verdict a1);
     ("Market Quotes"%string, TradierApi.plain_verdict a2);
     ("Options Expirations"%string, TradierApi.plain_verdict a3);
     ("Options Chains"%string, TradierApi.chains_verdict a4)] /\
  TradierApi.passed s
  = length (filter (fun b : bool => b)
              [TradierApi.plain_verdict a1; TradierApi.plain_verdict a2;
               TradierApi.plain_verdict a3; TradierApi.chains_verdict a4]) /\
  (TradierApi.all_passed s = true <->
   (exists d, a1 = Response 200 (Some d)) /\
   (exists d, a2 = Response 200 (Some d)) /\
   (exists d, a3 = Response 200 (Some d)) /\
   (exists d, a4 = Response 200 (Some d) /\ TradierApi.chain_report d = true)).
Proof.
  unfold TradierApi.main.
  destruct (TradierApi.key_missing key); [discriminate|].
  unfold TradierApi.test_user_profile, TradierApi.test_market_quotes,
    TradierApi.test_options_expirations, TradierApi.test_options_chains,
    http_get.
  rewrite !length_app. cbn [length].
  replace (length log + 1 + 1)%nat with (length log + 2)%nat by lia.
  replace (length log + 2 + 1)%nat with (length log + 3)%nat by lia.
  intro H. injection H as <- _. cbv zeta.
  set (a1 := net (length log) (TradierApi.profile_request key)).
  set (a2 := net (length log + 1)%nat (TradierApi.quotes_request key)).
  set (a3 := net (length log + 2)%nat (TradierApi.expirations_request key)).
  set (a4 := net (length log + 3)%nat (TradierApi.chains_request key)).
  split; [reflexivity|]. split.
  - cbn [TradierApi.passed]. simpl.
    destruct (TradierApi.plain_verdict a1), (TradierApi.plain_verdict a2),
      (TradierApi.plain_verdict a3), (TradierApi.chains_verdict a4);
      reflexivity.
  - rewrite <- !plain_verdict_true, <- chains_verdict_true.
    cbn [TradierApi.all_passed]. simpl.
    destruct (TradierApi.plain_verdict a1), (TradierApi.plain_verdict a2),
      (TradierApi.plain_verdict a3), (TradierApi.chains_verdict a4);
      simpl; split; intros; try discriminate; try tauto; intuition discriminate.
Qed.

Lemma main_verdict_witness :
  exists s log',
    TradierApi.main (fun _ _ => Response 200 (Some (JDict [])))
      (Some "abc"%string) [] = (Some s, log') /\
    TradierApi.all_passed s = true.
Proof.
  eexists. eexists. split; [reflexivity|].
  eapply (main_verdict (fun _ _ => Response 200 (Some (JDict [])))
            (Some "abc"%string) []).
  - reflexivity.
  - repeat split; eexists; try reflexivity. split; reflexivity.
Defined.

Lemma find_existsb {A} (p : A -> bool) (l : list A) :
  existsb p l = true -> exists x, find p l = Some x.
Proof.
  induction l as [|a l IH]; simpl; [discriminate|].
  destruct (p a); [intros _; eexists; reflexivity|exact IH].
Qed.

Lemma find_Some_existsb {A} (p : A -> bool) (l : list A) (x : A) :
  find p l = Some x -> existsb p l = true.
Proof.
  intro H. apply find_some in H. apply existsb_exists. exists x. exact H.
Qed.

(** X18.  The test of the option chain depends on the shape of the body,
    not only on the status.  For a JSON object it goes through when the
    object has no ["options"] entry or when that entry is itself an
    object; it is caught as an error, and the test fails, when the entry
    is [null], and when the body is [null], a boolean or a number.  A
    reply of status 200 with the body [{"options": null}] therefore fails
    the chains test although it passes the plain ones. *)
Theorem chain_report_cases :
  (forall d, py_contains "options" (JDict d) = Some false ->
             TradierApi.chain_report (JDict d) = true) /\
  (forall d e, py_getitem (JDict d) "options" = Some (JDict e) ->
               TradierApi.chain_report (JDict d) = true) /\
  (forall d, py_getitem (JDict d) "options" = Some JNull ->
             TradierApi.chain_report (JDict d) = false /\
             TradierApi.chains_verdict (Response 200 (Some (JDict d))) = false /\
             TradierApi.plain_verdict (Response 200 (Some (JDict d))) = true) /\
  TradierApi.chain_report JNull = false /\
  (forall b, TradierApi.chain_report (JBool b) = false) /\
  (forall q, TradierApi.chain_report (JNum q) = false).
Proof.
  split; [|split; [|split; [|split; [|split]]]]; try reflexivity.
  - intros d H. unfold TradierApi.chain_report. rewrite H. reflexivity.
  - intros d e H. unfold TradierApi.chain_report.
    assert (Hc : py_contains "options" (JDict d) = Some true).
    { simpl in *.
      destruct (find (fun e0 => (fst e0 =? "options")%string) d) as [x|] eqn:E;
        [|discriminate].
      rewrite (find_Some_existsb _ _ _ E). reflexivity. }
    rewrite Hc, H.
    cbn [py_contains].
    destruct (existsb (fun e0 => (fst e0 =? "option")%string) e) eqn:E;
      [|reflexivity].
    destruct (find_existsb _ _ E) as (x & Hx).
    cbn [py_getitem]. rewrite Hx. reflexivity.
  - intros d H.
    assert (Hr : TradierApi.chain_report (JDict d) = false).
    { unfold TradierApi.chain_report.
      assert (Hc : py_contains "options" (JDict d) = Some true).
      { simpl in *.
        destruct (find (fun e0 => (fst e0 =? "options")%string) d) as [x|] eqn:E;
          [|discriminate].
        rewrite (find_Some_existsb _ _ _ E). reflexivity. }
      rewrite Hc, H. reflexivity. }
    split; [exact Hr|]. split; [|reflexivity].
    unfold TradierApi.chains_verdict. simpl. exact Hr.
Qed.

Lemma chain_report_cases_witness :
  TradierApi.chain_report (JDict [("options"%string, JNull)]) = false /\
  TradierApi.chain_report
    (JDict [("options"%string, JDict [("option"%string, JList [])])]) = true.
Proof.
  destruct chain_report_cases as (_ & H2 & H3 & _). split.
  - apply H3. reflexivity.
  - apply (H2 _ [("option"%string, JList [])]). reflexivity.
Defined.

Lemma verdict_success (r : reply) :
  TradierDetailed.verdict_of r = TradierDetailed.Success <->
  exists body, r = Response 200 body.
Proof.
  unfold TradierDetailed.verdict_of. split.
  - destruct r as [[]|code body]; try discriminate.
    destruct (code =? 200) eqn:E.
    + apply Z.eqb_eq in E. subst. intros _. exists body. reflexivity.
    + destruct (code =? 401); [discriminate|].
      destruct (code =? 403); discriminate.
  - intros (body & ->). reflexivity.
Qed.

(** X19.  The detailed probe and its key.  With the variable unset it
    stops on a type error before any request.  With any key, the empty
    one included, it sends three requests in order, each with a timeout of
    ten seconds and the key as bearer token: two to the sandbox and the
    third to the production host.  No failure of the network ends the run:
    each endpoint gets a verdict, Success exactly on status 200.  With the
    empty key the run then stops on an index error in the diagnostics;
    with any other key it ends normally. *)
Theorem detailed_probe_run (net : Network) (log : Log) :
  TradierDetailed.test_api_detailed net None log = (inl TypeError, log) /\
  (forall k,
      let r1 := TradierDetailed.request k
                  "https://sandbox.tradier.com/v1/user/profile" in
      let r2 := TradierDetailed.request k
                  "https://sandbox.tradier.com/v1/markets/quotes?symbols=SPY" in
      let r3 := TradierDetailed.request k
                  "https://api.tradier.com/v1/user/profile" in
      let n := length log in
      let vs := [("Sandbox User Profile"%string,
                  TradierDetailed.verdict_of (net n r1));
                 ("Sandbox Market Data"%string,
                  TradierDetailed.verdict_of (net (n + 1)%nat r2));
                 ("Production User Profile"%string,
                  TradierDetailed.verdict_of (net (n + 2)%nat r3))] in
      snd (TradierDetailed.test_api_detailed net (Some k) log)
      = log ++ [r1; r2; r3] /\
      (k = ""%string ->
       fst (TradierDetailed.test_api_detailed net (Some k) log)
       = inl IndexError) /\
      (k <> ""%string ->
       fst (TradierDetailed.test_api_detailed net (Some k) log) = inr vs) /\
      (forall r, In r [r1; r2; r3] ->
                 authorization r = ("Bearer " ++ k)%string /\
                 timeout r = Some 10)) /\
  (forall r, TradierDetailed.verdict_of r = TradierDetailed.Success <->
             exists body, r = Response 200 body).
Proof.
  split; [reflexivity|]. split; [|apply verdict_success].
  intro k. cbv zeta.
  unfold TradierDetailed.test_api_detailed, TradierDetailed.endpoints.
  cbn [TradierDetailed.probe]. unfold http_get.
  rewrite !length_app. cbn [length].
  replace (length log + 1 + 1)%nat with (length log + 2)%nat by lia.
  rewrite <- !app_assoc. cbn [app].
  split; [destruct k; reflexivity|]. split; [|split].
  - intros ->. reflexivity.
  - intro Hne. destruct k; [contradiction|reflexivity].
  - intros r [<-|[<-|[<-|[]]]]; split; reflexivity.
Qed.

Lemma detailed_probe_run_witness :
  fst (TradierDetailed.test_api_detailed (fun _ _ => Raises Timeout)
         (Some ""%string) []) = inl IndexError /\
  fst (TradierDetailed.test_api_detailed (fun _ _ => Raises Timeout)
         (Some "abc"%string) [])
  = inr [("Sandbox User Profile"%string, TradierDetailed.TimedOut);
         ("Sandbox Market Data"%string, TradierDetailed.TimedOut);
         ("Production User Profile"%string, TradierDetailed.TimedOut)].
Proof.
  destruct (detailed_probe_run (fun _ _ => Raises Timeout) []) as (_ & H & _).
  split.
  - apply (H ""%string). reflexivity.
  - apply (H "abc"%string). discriminate.
Defined.

(** ** Delta tab *)

Lemma share_bounds {A} (p : A -> bool) (l : list A) :
  (0 < length l)%nat ->
  (0 <= len_Q (filter p l) / len_Q l /\ len_Q (filter p l) / len_Q l <= 1)%Q.
Proof.
  intro Hpos. pose proof (len_Q_pos l Hpos) as Hn.
  pose proof (len_Q_nonneg (filter p l)) as Hw.
  pose proof (len_Q_le _ _ (filter_length_le p l)) as Hle.
  split.
  - apply Qle_shift_div_l; [exact Hn|]. lra.
  - apply Qle_shift_div_r; [exact Hn|]. lra.
Qed.

(** X20.  The delta tab on the empty subset and elsewhere.  Unlike the
    win rate, the share of neutral trades has no guard: on the empty
    subset it is the missing value, as is the average delta, while the
    total delta is 0 and the bias reads Neutral.  On a subset with at
    least one trade the share is a number between 0 and 100. *)
Theorem delta_figures (df : DataFrame) :
  (df = [] ->
   neutral_pct df = NaN /\ avg_delta df = NaN /\ total_delta df = 0%Q /\
   bias df = "Neutral"%string /\ win_rate df = Finite 0) /\
  (df <> [] ->
   exists p, neutral_pct df = Finite p /\ (0 <= p <= 100)%Q).
Proof.
  split.
  - intros ->. repeat split.
  - intro Hne. destruct df as [|r0 df0]; [contradiction|].
    set (df := r0 :: df0) in *.
    assert (Hpos : (0 < length df)%nat) by (simpl; lia).
    pose proof (len_Q_pos df Hpos) as Hn.
    unfold neutral_pct, np_divide.
    destruct (Qeq_bool (len_Q df) 0) eqn:E.
    { apply Qeq_bool_iff in E. lra. }
    destruct (share_bounds (fun r => (delta_category r =? "Neutral")%string)
                df Hpos) as [H0 H1].
    fold (neutral_trades df) in H0, H1.
    exists (len_Q (neutral_trades df) / len_Q df * 100)%Q.
    split; [reflexivity|]. lra.
Qed.

Lemma delta_figures_witness :
  neutral_pct no_match = NaN /\
  exists p, neutral_pct sample_store = Finite p /\ (0 <= p <= 100)%Q.
Proof.
  split.
  - apply (delta_figures no_match). reflexivity.
  - apply (delta_figures sample_store). discriminate.
Defined.

(** ** Rounding *)

Lemma rint_close (q : Q) :
  (inject_Z (rint q) - q <= 1 # 2 /\ q - inject_Z (rint q) <= 1 # 2)%Q.
Proof.
  unfold rint.
  pose proof (Qfloor_le q) as Hlo.
  pose proof (Qlt_floor q) as Hhi.
  rewrite inject_Z_plus in Hhi. change (inject_Z 1) with 1%Q in Hhi.
  destruct (Qlt_bool (q - inject_Z (Qfloor q)) (1 # 2)) eqn:E1.
  - apply Qlt_bool_iff in E1. lra.
  - apply Qlt_bool_false_iff in E1.
    destruct (Qlt_bool (1 # 2) (q - inject_Z (Qfloor q))) eqn:E2.
    + rewrite inject_Z_plus. change (inject_Z 1) with 1%Q. lra.
    + apply Qlt_bool_false_iff in E2.
      destruct (Z.even (Qfloor q)).
      * lra.
      * rewrite inject_Z_plus. change (inject_Z 1) with 1%Q. lra.
Qed.

Lemma round_dec_close (k : nat) (q : Q) :
  let p := inject_Z (10 ^ Z.of_nat k) in
  ((round_dec k q - q) * p <= 1 # 2 /\ (q - round_dec k q) * p <= 1 # 2)%Q.
Proof.
  cbv zeta. unfold round_dec.
  set (p := inject_Z (10 ^ Z.of_nat k)).
  assert (Hp : (0 < p)%Q).
  { unfold p. change 0%Q with (inject_Z 0). rewrite <- Zlt_Qlt.
    apply Z.pow_pos_nonneg; lia. }
  destruct (rint_close (q * p)) as [H1 H2].
  assert (E : (inject_Z (rint (q * p)) / p * p == inject_Z (rint (q * p)))%Q)
    by (field; lra).
  split.
  - assert (E1 : ((inject_Z (rint (q * p)) / p - q) * p
                  == inject_Z (rint (q * p)) / p * p - q * p)%Q) by ring.
    rewrite E1, E. exact H1.
  - assert (E2 : ((q - inject_Z (rint (q * p)) / p) * p
                  == q * p - inject_Z (rint (q * p)) / p * p)%Q) by ring.
    rewrite E2, E. exact H2.
Qed.

Lemma round2_close (q : Q) :
  (round_dec 2 q - q <= 1 # 200 /\ q - round_dec 2 q <= 1 # 200)%Q.
Proof.
  pose proof (round_dec_close 2 q) as H. cbv zeta in H.
  change (inject_Z (10 ^ Z.of_nat 2)) with 100%Q in H. lra.
Qed.

Lemma winning_sum (g : DataFrame) :
  (forall r, In r g -> (winning_trade r = true <-> (0 < pnl r)%Q)) ->
  (series_sum (map (fun r => bool_Q (winning_trade r)) g) == len_Q (wins g))%Q.
Proof.
  unfold series_sum, len_Q, wins.
  induction g as [|r g IH]; intro H; [reflexivity|].
  cbn [map fold_right filter].
  rewrite IH by (intros x Hx; apply H; right; exact Hx).
  pose proof (H r (or_introl eq_refl)) as Hr.
  destruct (winning_trade r) eqn:Ew; destruct (Qlt_bool 0 (pnl r)) eqn:Ep.
  - cbn [length bool_Q]. rewrite Nat2Z.inj_succ, <- Z.add_1_l, inject_Z_plus.
    reflexivity.
  - apply Qlt_bool_false_iff in Ep. destruct Hr as [Hr _].
    specialize (Hr eq_refl). lra.
  - apply Qlt_bool_iff in Ep. destruct Hr as [_ Hr].
    specialize (Hr Ep). discriminate Hr.
  - cbn [bool_Q]. lra.
Qed.

(** X22.  The win rate of a table row and the headline win rate agree up
    to the two roundings of the table.  For a group of at least one trade
    whose winning flags are those set at load time, the Win_Rate shown in
    a grouped table differs by at most 0.55 from the win rate the overview
    computes for the same trades. *)
Theorem win_rate_column (g : DataFrame) :
  g <> [] ->
  (forall r, In r g -> (winning_trade r = true <-> (0 < pnl r)%Q)) ->
  exists shown exact,
    agg_win_rate g = Finite shown /\ win_rate g = Finite exact /\
    (shown - exact <= 11 # 20)%Q /\ (exact - shown <= 11 # 20)%Q.
Proof.
  intros Hne Hw. destruct g as [|r0 g0]; [contradiction|].
  set (g := r0 :: g0) in *.
  assert (Hpos : (0 < length g)%nat) by (simpl; lia).
  pose proof (len_Q_pos g Hpos) as Hn.
  pose proof (winning_sum g Hw) as Hs.
  set (m := (series_sum (map (fun r => bool_Q (winning_trade r)) g)
             / len_Q (map (fun r => bool_Q (winning_trade r)) g))%Q).
  exists (round_dec 1 (round_dec 2 m * 100)).
  exists (len_Q (wins g) / len_Q g * 100)%Q.
  split; [reflexivity|]. split.
  - unfold win_rate. replace (0 <? length g)%nat with true; [reflexivity|].
    symmetry. apply Nat.ltb_lt, Hpos.
  - assert (Em : (m == len_Q (wins g) / len_Q g)%Q).
    { unfold m. rewrite Hs. unfold len_Q. rewrite length_map. reflexivity. }
    destruct (round2_close m) as [A1 A2].
    pose proof (round_dec_close 1 (round_dec 2 m * 100)) as B.
    cbv zeta in B. change (inject_Z (10 ^ Z.of_nat 1)) with 10%Q in B.
    destruct B as [B1 B2].
    rewrite <- Em. lra.
Qed.

Lemma win_rate_column_witness :
  exists shown exact,
    agg_win_rate sample_store = Finite shown /\
    win_rate sample_store = Finite exact /\
    (shown - exact <= 11 # 20)%Q /\ (exact - shown <= 11 # 20)%Q.
Proof.
  apply (win_rate_column sample_store); [discriminate|].
  intros r Hr. simpl in Hr.
  repeat (destruct Hr as [<-|Hr]; [apply Qlt_bool_iff|]).
  destruct Hr.
Defined.

(** ** The headline sums on binary64 cells *)

Lemma Prim2SF_zero : Prim2SF 0%float = S754_zero false.
Proof. reflexivity. Qed.

Lemma Prim2SF_infinity : Prim2SF infinity = S754_infinity false.
Proof. reflexivity. Qed.

(** What the tests of the script say of a cell, by the kind of cell. *)
Lemma cell_cases (x : float) :
  match Prim2SF x with
  | S754_finite s m e =>
      (0 <? x)%float = negb s /\ (x <? 0)%float = s /\
      (x =? 0)%float = false /\ is_nan x = false /\ is_infinity x = false
  | S754_infinity s =>
      (0 <? x)%float = negb s /\ (x <? 0)%float = s /\
      (x =? 0)%float = false /\ is_nan x = false /\ is_infinity x = true
  | S754_zero _ =>
      (0 <? x)%float = false /\ (x <? 0)%float = false /\
      (x =? 0)%float = true /\ is_nan x = false /\ is_infinity x = false
  | S754_nan =>
      (0 <? x)%float = false /\ (x <? 0)%float = false /\
      (x =? 0)%float = false /\ is_nan x = true /\ is_infinity x = false
  end.
Proof.
  unfold is_nan, is_infinity.
  rewrite !FloatAxioms.ltb_spec, !FloatAxioms.eqb_spec, FloatAxioms.abs_spec,
    Prim2SF_zero, Prim2SF_infinity.
  destruct (Prim2SF x) as [[]|[]| |[] m e]; cbn; repeat split;
    rewrite Z.compare_refl;
    change (PosDef.Pos.compare_cont Eq m m) with (Pos.compare m m);
    rewrite Pos.compare_refl; reflexivity.
Qed.

Lemma positive_cell (x : float) :
  (0 <? x)%float = true ->
  (x <? 0)%float = false /\ (x =? 0)%float = false /\ is_nan x = false.
Proof.
  pose proof (cell_cases x) as H.
  destruct (Prim2SF x) as [[]|[]| |[] m e]; intro P;
    destruct H as (H1 & H2 & H3 & H4 & H5); rewrite P in H1;
    try discriminate H1; auto.
Qed.

Lemma negative_cell (x : float) :
  (x <? 0)%float = true ->
  (0 <? x)%float = false /\ (x =? 0)%float = false /\ is_nan x = false.
Proof.
  pose proof (cell_cases x) as H.
  destruct (Prim2SF x) as [[]|[]| |[] m e]; intro P;
    destruct H as (H1 & H2 & H3 & H4 & H5); rewrite P in H2;
    try discriminate H2; auto.
Qed.

Lemma value_sign (x : float) :
  is_infinity x = false ->
  ((0 <? x)%float = true <-> (0 < F64.value x)%Q) /\
  ((x <? 0)%float = true <-> (F64.value x < 0)%Q).
Proof.
  pose proof (cell_cases x) as H. unfold F64.value.
  destruct (Prim2SF x) as [s|s| |s m e]; intro I;
    destruct H as (H1 & H2 & H3 & H4 & H5); rewrite H1, H2.
  - split; split; try discriminate; intro C; inversion C.
  - congruence.
  - split; split; try discriminate; intro C; inversion C.
  - assert (P : (0 < inject_Z (Z.pos m) * Qpower 2 e)%Q).
    { apply Qmult_lt_0_compat.
      - change 0%Q with (inject_Z 0). rewrite <- Zlt_Qlt. lia.
      - apply Qpower_0_lt. reflexivity. }
    destruct s; cbn [negb]; split; split; try discriminate; intro C;
      try reflexivity; try lra.
Qed.

Lemma float_sub_zero (x : float) : (x - 0)%float = x.
Proof.
  apply Prim2SF_inj. rewrite FloatAxioms.sub_spec, Prim2SF_zero.
  destruct (Prim2SF x) as [[]|[]| |[] m e]; reflexivity.
Qed.

Lemma filter_implied {A} (p q : A -> bool) (l : list A) :
  (forall x, p x = true -> q x = true) -> filter p (filter q l) = filter p l.
Proof.
  intro H. induction l as [|x l IH]; simpl; [reflexivity|].
  destruct (p x) eqn:Ep.
  - rewrite (H x Ep). simpl. rewrite Ep, IH. reflexivity.
  - destruct (q x); simpl; rewrite ?Ep; exact IH.
Qed.

(** The exact sums of the cells split by sign, and the negative part is
    not above 0. *)
Lemma exact_sums_split (pnl : list float) :
  (forall x, In x pnl -> is_infinity x = false) ->
  (series_sum (map F64.value pnl)
   == series_sum (map F64.value (filter (fun x => (0 <? x)%float) pnl))
      + series_sum (map F64.value (filter (fun x => (x <? 0)%float) pnl)))%Q /\
  (series_sum (map F64.value (filter (fun x => (x <? 0)%float) pnl)) <= 0)%Q.
Proof.
  unfold series_sum.
  induction pnl as [|x l IH]; intro H; simpl; [split; lra|].
  destruct IH as [IH1 IH2]; [intros y Hy; apply H; right; exact Hy|].
  destruct (value_sign x (H x (or_introl eq_refl))) as [P N].
  destruct (0 <? x)%float eqn:Ep; destruct (x <? 0)%float eqn:En; simpl.
  - assert (0 < F64.value x)%Q by (apply P; reflexivity).
    assert (F64.value x < 0)%Q by (apply N; reflexivity). lra.
  - split; [lra|exact IH2].
  - assert (F64.value x < 0)%Q by (apply N; reflexivity). split; lra.
  - assert (~ (0 < F64.value x)%Q) by (intro C; apply P in C; discriminate C).
    assert (~ (F64.value x < 0)%Q) by (intro C; apply N in C; discriminate C).
    split; [lra|exact IH2].
Qed.

Lemma wrap_small (z : Z) : - 2 ^ 63 <= z < 2 ^ 63 -> I64.wrap z = z.
Proof.
  intro H. unfold I64.wrap. rewrite Z.mod_small; lia.
Qed.

Lemma magnitude_nonneg (l : list Z) : 0 <= I64.magnitude l.
Proof. induction l as [|x l IH]; simpl; lia. Qed.

Lemma magnitude_filter (p : Z -> bool) (l : list Z) :
  I64.magnitude (filter p l) <= I64.magnitude l.
Proof.
  induction l as [|x l IH]; simpl; [lia|].
  destruct (p x); simpl; lia.
Qed.

(** Below 2^63 the int64 sum is the sum. *)
Lemma int64_sum_exact (l : list Z) :
  I64.magnitude l < 2 ^ 63 ->
  I64.sum l = fold_right Z.add 0 l /\ Z.abs (I64.sum l) <= I64.magnitude l.
Proof.
  unfold I64.sum.
  assert (G : forall acc,
             Z.abs acc + I64.magnitude l < 2 ^ 63 ->
             fold_left (fun a x => I64.wrap (a + x)) l acc
             = acc + fold_right Z.add 0 l /\
             Z.abs (acc + fold_right Z.add 0 l) <= Z.abs acc + I64.magnitude l).
  { induction l as [|x l IH]; intros acc H; simpl in *; [split; lia|].
    pose proof (magnitude_nonneg l) as Hm.
    rewrite wrap_small by lia.
    destruct (IH (acc + x)) as [E B]; [lia|].
    rewrite E. split; lia. }
  intro H. destruct (G 0) as [E B]; [simpl; lia|].
  rewrite E. simpl in *. split; [reflexivity|lia].
Qed.

Lemma int_sums_split (l : list Z) :
  fold_right Z.add 0 l
  = fold_right Z.add 0 (filter (fun x => 0 <? x) l)
    + fold_right Z.add 0 (filter (fun x => x <? 0) l) /\
  fold_right Z.add 0 (filter (fun x => x <? 0) l) <= 0.
Proof.
  induction l as [|x l [IH1 IH2]]; simpl; [lia|].
  destruct (0 <? x) eqn:Ep; destruct (x <? 0) eqn:En; simpl;
    try apply Z.ltb_lt in Ep; try apply Z.ltb_lt in En;
    try apply Z.ltb_ge in Ep; try apply Z.ltb_ge in En; lia.
Qed.



